(** * Store Inventory (app.py): a shallow embedding and its properties

    The program keeps a table [Product] in an SQLite database, fills it
    from [inventory.csv] when it starts, lets the user add products one
    at a time and writes the table back to [backup.csv].

    Python values are embedded as follows.
    - [str] is [string]; each [ascii] is one code point below 256.
    - [int] is [Z].
    - [float] is IEEE binary64, kept as sign, integer mantissa and binary
      exponent, with round-to-nearest-even written out over [Z].
    - an exception that leaves a function is the [Raise] case of [result].
    - the table is the list of its rows in rowid order.

    - [sys.exit()] is the [Exit] case of an [ending]; the main loop,
      which has no bound of its own, runs for a number of turns that is
      given and says when they did not suffice.

    Left out: what the program prints and the clearing of the screen; a
    file that cannot be opened; the interrupt from the keyboard; the
    bound of SQLite on the size of an integer; the limit recent Python
    versions put on the number of digits [int] reads. *)

From Stdlib Require Import ZArith List String Ascii Bool Lia.
Import ListNotations.
Open Scope string_scope.
Open Scope Z_scope.

(** ** Python builtins used by app.py *)
Module Py.

Inductive exn : Type :=
| AttributeError
| TypeError
| ValueError
| OverflowError
| EOFError
| IntegrityError
| DoesNotExist.

Inductive result (A : Type) : Type :=
| Ok (a : A)
| Raise (e : exn).
Arguments Ok {A} a.
Arguments Raise {A} e.

Definition bind {A B : Type} (r : result A) (k : A -> result B) : result B :=
  match r with
  | Ok a => k a
  | Raise e => Raise e
  end.

Notation "x <- r ;; k" := (bind r (fun x => k))
  (at level 61, r at next level, right associativity).

(** *** Characters *)

Definition code (c : ascii) : Z := Z.of_N (N_of_ascii c).

(** [\d] of [re], and the digits [int] and [float] accept: below 256 the
    only decimal digits are 0-9. *)
Definition isdigit (c : ascii) : bool := (48 <=? code c) && (code c <=? 57).

Definition digit_val (c : ascii) : Z := code c - 48.

(** The white space [int] and [float] strip: tab to carriage return and
    space, and, outside ASCII, NEL and the no-break space. *)
Definition isspace (c : ascii) : bool :=
  let n := code c in
  ((9 <=? n) && (n <=? 13)) || (n =? 32) || (n =? 133) || (n =? 160).

Fixpoint lstrip (s : string) : string :=
  match s with
  | String c r => if isspace c then lstrip r else s
  | EmptyString => EmptyString
  end.

(** Drops trailing white space: a character is kept when it is not white
    space or something is kept after it. *)
Fixpoint rstrip (s : string) : string :=
  match s with
  | String c r =>
      match rstrip r with
      | EmptyString => if isspace c then EmptyString else String c EmptyString
      | r' => String c r'
      end
  | EmptyString => EmptyString
  end.

Definition strip (s : string) : string := rstrip (lstrip s).

(** The longest prefix of digits, and what follows it. *)
Fixpoint span_digits (s : string) : string * string :=
  match s with
  | String c r =>
      if isdigit c
      then let (d, t) := span_digits r in (String c d, t)
      else (EmptyString, s)
  | EmptyString => (EmptyString, EmptyString)
  end.

(** Value of a string of digits, most significant first. *)
Fixpoint digits_val (acc : Z) (s : string) : Z :=
  match s with
  | String c r => digits_val (10 * acc + digit_val c) r
  | EmptyString => acc
  end.

Definition slen (s : string) : Z := Z.of_nat (String.length s).

(** Underscores in a numeric literal stand between two digits; they are
    dropped. [prev] is the character before [s]. *)
Fixpoint drop_underscores (prev : option ascii) (s : string) : option string :=
  let after_digit := match prev with Some p => isdigit p | None => false end in
  let after_us := match prev with Some p => Ascii.eqb p "_" | None => false end in
  match s with
  | String c r =>
      if Ascii.eqb c "_"
      then if after_digit then drop_underscores (Some c) r else None
      else if after_us && negb (isdigit c) then None
           else option_map (String c) (drop_underscores (Some c) r)
  | EmptyString => if after_us then None else Some EmptyString
  end.

(** An optional sign: [true] for minus. *)
Definition take_sign (s : string) : bool * string :=
  match s with
  | String "-" r => (true, r)
  | String "+" r => (false, r)
  | _ => (false, s)
  end.

(** *** int(str) and str(int) *)

Definition int_of_string (s : string) : result Z :=
  let (neg, body) := take_sign (strip s) in
  match drop_underscores None body with
  | None => Raise ValueError
  | Some ds =>
      match span_digits ds with
      | (String c d, EmptyString) =>
          let v := digits_val 0 (String c d) in
          Ok (if neg then - v else v)
      | _ => Raise ValueError
      end
  end.

Definition digit_char (d : Z) : ascii := ascii_of_N (Z.to_N (48 + d)).

(** Decimal digits of [n >= 0], at most [fuel] of them, in front of [acc]. *)
Fixpoint digits_of (fuel : nat) (n : Z) (acc : string) : string :=
  match fuel with
  | O => acc
  | S f =>
      let acc' := String (digit_char (n mod 10)) acc in
      if n <? 10 then acc' else digits_of f (n / 10) acc'
  end.

Definition nat_to_string (n : Z) : string :=
  digits_of (S (Z.to_nat (Z.log2 n))) n EmptyString.

Definition str_of_int (z : Z) : string :=
  if z <? 0 then String "-" (nat_to_string (- z)) else nat_to_string z.

(** *** float *)

(** [Fin neg m e] is [m * 2^e], negated when [neg]; [m >= 0]. *)
Inductive float : Type :=
| Fin (neg : bool) (m e : Z)
| Inf (neg : bool)
| NaN.

(** [floor (log2 (n / d))] for [n, d > 0]. *)
Definition floor_log2_ratio (n d : Z) : Z :=
  let l := Z.log2 n - Z.log2 d in
  if (if 0 <=? l then d * 2 ^ l <=? n else d <=? n * 2 ^ (- l))
  then l else l - 1.

(** The integer nearest to [num / den], ties to the even one. *)
Definition round_half_even (num den : Z) : Z :=
  let q := num / den in
  match 2 * (num mod den) ?= den with
  | Lt => q
  | Gt => q + 1
  | Eq => if Z.even q then q else q + 1
  end.

(** The binary64 nearest to [n / d] ([n >= 0], [d > 0]): 53 bits of
    mantissa, exponent of the last bit no less than -1074, infinity from
    [2^1024] on. *)
Definition binary64 (neg : bool) (n d : Z) : float :=
  if n =? 0 then Fin neg 0 0
  else
    let e := Z.max (floor_log2_ratio n d - 52) (-1074) in
    let m := if 0 <=? e
             then round_half_even n (d * 2 ^ e)
             else round_half_even (n * 2 ^ (- e)) d in
    if (0 <=? e) && (2 ^ 1024 <=? m * 2 ^ e) then Inf neg else Fin neg m e.

(** The binary64 nearest to [m * 2^e]. *)
Definition of_dyadic (neg : bool) (m e : Z) : float :=
  if 0 <=? e then binary64 neg (m * 2 ^ e) 1 else binary64 neg m (2 ^ (- e)).

(** The binary64 nearest to [m * 10^e]. *)
Definition of_decimal (neg : bool) (m e : Z) : float :=
  if 0 <=? e then binary64 neg (m * 10 ^ e) 1 else binary64 neg m (10 ^ (- e)).

Definition fmul (a b : float) : float :=
  match a, b with
  | NaN, _ => NaN
  | _, NaN => NaN
  | Inf s, Inf t => Inf (xorb s t)
  | Inf s, Fin t m _ => if m =? 0 then NaN else Inf (xorb s t)
  | Fin s m _, Inf t => if m =? 0 then NaN else Inf (xorb s t)
  | Fin s m1 e1, Fin t m2 e2 => of_dyadic (xorb s t) (m1 * m2) (e1 + e2)
  end.

(** The float an [int] operand is converted to; exact for [100]. *)
Definition float_of_int (z : Z) : float := binary64 (z <? 0) (Z.abs z) 1.

(** int(float): truncation towards zero. *)
Definition int_of_float (f : float) : result Z :=
  match f with
  | NaN => Raise ValueError
  | Inf _ => Raise OverflowError
  | Fin s m e =>
      let a := if 0 <=? e then m * 2 ^ e else m / 2 ^ (- e) in
      Ok (if s then - a else a)
  end.

(** int / int: the binary64 nearest to the quotient. *)
Definition truediv (a b : Z) : result float :=
  match binary64 (xorb (a <? 0) (b <? 0)) (Z.abs a) (Z.abs b) with
  | Inf _ => Raise OverflowError
  | f => Ok f
  end.

Definition lower (c : ascii) : ascii :=
  if (65 <=? code c) && (code c <=? 90)
  then ascii_of_N (N_of_ascii c + 32) else c.

Fixpoint lower_string (s : string) : string :=
  match s with
  | String c r => String (lower c) (lower_string r)
  | EmptyString => EmptyString
  end.

(** A decimal literal: digits, an optional point and digits, at least
    one digit in all, an optional exponent. Gives mantissa and power of
    ten. *)
Definition parse_decimal (s : string) : option (Z * Z) :=
  let (ip, r1) := span_digits s in
  let (fp, r2) := match r1 with
                  | String "." r => span_digits r
                  | _ => (EmptyString, r1)
                  end in
  if slen ip + slen fp =? 0 then None
  else
    let m := digits_val (digits_val 0 ip) fp in
    match r2 with
    | EmptyString => Some (m, - slen fp)
    | String c r3 =>
        if Ascii.eqb (lower c) "e"
        then
          let (eneg, r4) := take_sign r3 in
          match span_digits r4 with
          | (String c' d, EmptyString) =>
              let x := digits_val 0 (String c' d) in
              Some (m, (if eneg then - x else x) - slen fp)
          | _ => None
          end
        else None
    end.

(** float(str). *)
Definition float_of_string (s : string) : result float :=
  match drop_underscores None (strip s) with
  | None => Raise ValueError
  | Some t =>
      let (neg, body) := take_sign t in
      let w := lower_string body in
      if String.eqb w "inf" || String.eqb w "infinity" then Ok (Inf neg)
      else if String.eqb w "nan" then Ok NaN
      else match parse_decimal body with
           | Some (m, e) => Ok (of_decimal neg m e)
           | None => Raise ValueError
           end
  end.

(** *** repr(float) *)

(** [n / d >= 10^k], for [n, d > 0]. *)
Definition ge_pow10 (n d k : Z) : bool :=
  if 0 <=? k then d * 10 ^ k <=? n else d <=? n * 10 ^ (- k).

(** [floor (log10 (n / d))] for [n, d > 0], from the binary logarithm. *)
Definition floor_log10_ratio (n d : Z) : Z :=
  let k := floor_log2_ratio n d * 30103 / 100000 in
  if ge_pow10 n d (k + 1) then k + 1
  else if ge_pow10 n d k then k else k - 1.

(** Numerator and denominator of a finite float's magnitude. *)
Definition ratio_of (m e : Z) : Z * Z :=
  if 0 <=? e then (m * 2 ^ e, 1) else (m, 2 ^ (- e)).

(** Same real value, for the floats [binary64] returns. *)
Definition same_value (a b : float) : bool :=
  match a, b with
  | Fin s m1 e1, Fin t m2 e2 =>
      Bool.eqb s t &&
      (let (n1, d1) := ratio_of m1 e1 in
       let (n2, d2) := ratio_of m2 e2 in
       n1 * d2 =? n2 * d1)
  | Inf s, Inf t => Bool.eqb s t
  | _, _ => false
  end.

(** The decimals [lo * 10^x <= n / d < (lo + 1) * 10^x] around [n / d],
    and which of the two is nearer ([true]: the upper; ties to even). *)
Definition decimals_around (n d x : Z) : Z * bool :=
  let (num, den) := if 0 <=? x then (n, d * 10 ^ x) else (n * 10 ^ (- x), d) in
  (num / den, negb (round_half_even num den =? num / den)).

(** The shortest decimal [c * 10^x] that [float] reads back as
    [m * 2^e], the nearest one when two are as short; digits are tried
    from [digits] on, and [fuel] more lengths after that. *)
Fixpoint shortest_decimal (fuel : nat) (digits : Z) (m e : Z) : Z * Z :=
  let (n, d) := ratio_of m e in
  let x := floor_log10_ratio n d - digits + 1 in
  let (lo, up) := decimals_around n d x in
  let nearest := if up then lo + 1 else lo in
  match fuel with
  | O => (nearest, x)
  | S f =>
      let ok c := same_value (of_decimal false c x) (Fin false m e) in
      if ok lo && ok (lo + 1) then (nearest, x)
      else if ok lo then (lo, x)
      else if ok (lo + 1) then (lo + 1, x)
      else shortest_decimal f (digits + 1) m e
  end.

(** Trailing zeros of the digits move into the exponent. *)
Fixpoint strip_zeros (fuel : nat) (c x : Z) : Z * Z :=
  match fuel with
  | O => (c, x)
  | S f => if (c mod 10 =? 0) && negb (c =? 0)
           then strip_zeros f (c / 10) (x + 1) else (c, x)
  end.

Fixpoint zeros (n : nat) : string :=
  match n with
  | O => EmptyString
  | S k => String "0" (zeros k)
  end.

(** The text of a positive finite float with digits [ds] and the decimal
    point after the first [decpt] of them. *)
Definition format_repr (ds : string) (decpt : Z) : string :=
  let nd := slen ds in
  if (decpt <=? -4) || (16 <? decpt) then
    let x := decpt - 1 in
    let mant := match ds with
                | String c EmptyString => ds
                | String c r => String c (String "." r)
                | EmptyString => ds
                end in
    let xs := nat_to_string (Z.abs x) in
    mant ++ "e" ++ (if x <? 0 then "-" else "+")
         ++ (if slen xs <? 2 then "0" else "") ++ xs
  else if decpt <=? 0 then
    "0." ++ zeros (Z.to_nat (- decpt)) ++ ds
  else if nd <=? decpt then
    ds ++ zeros (Z.to_nat (decpt - nd)) ++ ".0"
  else
    substring 0 (Z.to_nat decpt) ds ++ "."
      ++ substring (Z.to_nat decpt) (Z.to_nat (nd - decpt)) ds.

Definition repr_float (f : float) : string :=
  match f with
  | NaN => "nan"
  | Inf s => if s then "-inf" else "inf"
  | Fin s m e =>
      (if s then "-" else "") ++
      (if m =? 0 then "0.0"
       else
         let (c0, x0) := shortest_decimal 16 1 m e in
         let (c, x) := strip_zeros 17 c0 x0 in
         let ds := nat_to_string c in
         format_repr ds (slen ds + x))
  end.

End Py.

(** ** datetime.date, with strptime and strftime for ["%m/%d/%Y"] *)
Module Date.
Import Py.

Record date : Type := mkdate { year : Z; month : Z; day : Z }.

(** [a < b] on dates. *)
Definition ltb (a b : date) : bool :=
  (year a <? year b)
  || ((year a =? year b)
      && ((month a <? month b)
          || ((month a =? month b) && (day a <? day b)))).

Definition is_leap (y : Z) : bool :=
  ((y mod 4 =? 0) && negb (y mod 100 =? 0)) || (y mod 400 =? 0).

Definition days_in_month (y m : Z) : Z :=
  if m =? 2 then (if is_leap y then 29 else 28)
  else if (m =? 4) || (m =? 6) || (m =? 9) || (m =? 11) then 30
  else 31.

(** date(y, m, d) of the datetime module. *)
Definition make (y m d : Z) : result date :=
  if (1 <=? y) && (y <=? 9999) && (1 <=? m) && (m <=? 12)
     && (1 <=? d) && (d <=? days_in_month y m)
  then Ok (mkdate y m d) else Raise ValueError.

Definition between (lo hi : Z) (c : ascii) : bool :=
  isdigit c && (lo <=? digit_val c) && (digit_val c <=? hi).

(** The group [%m]: [1[0-2]|0[1-9]|[1-9]]. *)
Definition parse_m (s : string) : option (Z * string) :=
  match s with
  | String a (String b r) =>
      if Ascii.eqb a "1" && between 0 2 b then Some (10 + digit_val b, r)
      else if Ascii.eqb a "0" && between 1 9 b then Some (digit_val b, r)
      else if between 1 9 a then Some (digit_val a, String b r)
      else None
  | String a EmptyString =>
      if between 1 9 a then Some (digit_val a, EmptyString) else None
  | EmptyString => None
  end.

(** The group [%d]: [3[0-1]|[1-2]\d|0[1-9]|[1-9]| [1-9]]. *)
Definition parse_d (s : string) : option (Z * string) :=
  match s with
  | String a (String b r) =>
      if Ascii.eqb a "3" && between 0 1 b then Some (30 + digit_val b, r)
      else if between 1 2 a && isdigit b
           then Some (10 * digit_val a + digit_val b, r)
      else if Ascii.eqb a "0" && between 1 9 b then Some (digit_val b, r)
      else if between 1 9 a then Some (digit_val a, String b r)
      else if Ascii.eqb a " " && between 1 9 b then Some (digit_val b, r)
      else None
  | String a EmptyString =>
      if between 1 9 a then Some (digit_val a, EmptyString) else None
  | EmptyString => None
  end.

(** The group [%Y]: four digits. *)
Definition parse_Y (s : string) : option (Z * string) :=
  match s with
  | String a (String b (String c (String d r))) =>
      if isdigit a && isdigit b && isdigit c && isdigit d
      then Some (digits_val 0 (String a (String b (String c (String d EmptyString)))), r)
      else None
  | _ => None
  end.

Definition expect_slash (s : string) : option string :=
  match s with
  | String "/" r => Some r
  | _ => None
  end.

(** datetime.strptime(s, "%m/%d/%Y").date() *)
Definition strptime (s : string) : result date :=
  match parse_m s with
  | None => Raise ValueError
  | Some (m, s1) =>
      match expect_slash s1 with
      | None => Raise ValueError
      | Some s2 =>
          match parse_d s2 with
          | None => Raise ValueError
          | Some (d, s3) =>
              match expect_slash s3 with
              | None => Raise ValueError
              | Some s4 =>
                  match parse_Y s4 with
                  | Some (y, EmptyString) => make y m d
                  | _ => Raise ValueError
                  end
              end
          end
      end
  end.

(** Two digits, with a leading zero below ten. *)
Definition two_digits (n : Z) : string :=
  if n <? 10 then String "0" (nat_to_string n) else nat_to_string n.

(** strftime("%m/%d/%Y"): month and day on two digits; the year as the C
    library prints it, which from 1000 on is its four digits. *)
Definition strftime (d : date) : string :=
  two_digits (month d) ++ "/" ++ two_digits (day d) ++ "/"
    ++ nat_to_string (year d).

Definition pad4 (n : Z) : string :=
  zeros (4 - String.length (nat_to_string n)) ++ nat_to_string n.

(** str(date): the ISO form. *)
Definition isoformat (d : date) : string :=
  pad4 (year d) ++ "-" ++ two_digits (month d) ++ "-" ++ two_digits (day d).

End Date.

(** ** re.search(r"\d+.?\d{0,2}", s) *)
Module Re.
Import Py.

(** At most [n] leading digits. *)
Fixpoint take_digits (n : nat) (s : string) : string :=
  match n, s with
  | S k, String c r => if isdigit c then String c (take_digits k r) else EmptyString
  | _, _ => EmptyString
  end.

(** The match that starts at a digit: all the digits there, then one
    character if there is one and it is not a newline, then up to two
    digits. Each part takes all it can and the next one never fails, so
    nothing is given back. *)
Definition match_here (s : string) : string :=
  let (ds, r) := span_digits s in
  match r with
  | String c r' =>
      if Ascii.eqb c "010" then ds
      else ds ++ String c (take_digits 2 r')
  | EmptyString => ds
  end.

(** The text of the leftmost match, [None] when there is none. *)
Fixpoint search (s : string) : option string :=
  match s with
  | String c r => if isdigit c then Some (match_here s) else search r
  | EmptyString => None
  end.

End Re.

(** ** The table [Product] (peewee model over SQLite) *)
Module Db.
Import Py.

(** A model instance; [product_id] is [None] until the first save. *)
Record Product : Type := mkProduct {
  product_id : option Z;
  product_name : string;
  product_quantity : Z;
  product_price : Z;
  date_updated : Date.date
}.

(** The rows in rowid order. *)
Definition table : Type := list Product.

Definition has_id (i : Z) (r : Product) : bool :=
  match product_id r with
  | Some j => j =? i
  | None => false
  end.

Definition has_name (n : string) (r : Product) : bool :=
  String.eqb (product_name r) n.

(** The rowid of a new row: one more than the largest in the table. *)
Definition next_id (t : table) : Z :=
  1 + fold_right (fun r acc => match product_id r with
                               | Some i => Z.max i acc
                               | None => acc
                               end) 0 t.

(** Product.get(Product.product_name == n) *)
Definition get_by_name (t : table) (n : string) : result Product :=
  match find (has_name n) t with
  | Some r => Ok r
  | None => Raise DoesNotExist
  end.

(** p.save(): INSERT for an instance without id, UPDATE of the row with
    its id otherwise. [product_name] is unique: a statement that would
    give two rows one name fails with IntegrityError. Returns the table
    and the instance, which after an INSERT carries the new id. *)
Definition save (t : table) (p : Product) : result (table * Product) :=
  match product_id p with
  | None =>
      if existsb (has_name (product_name p)) t then Raise IntegrityError
      else
        let p' := mkProduct (Some (next_id t)) (product_name p)
                    (product_quantity p) (product_price p) (date_updated p) in
        Ok ((t ++ [p'])%list, p')
  | Some i =>
      if existsb (has_id i) t
         && existsb (fun r => has_name (product_name p) r && negb (has_id i r)) t
      then Raise IntegrityError
      else Ok (map (fun r => if has_id i r then p else r) t, p)
  end.

End Db.

(** ** The class [Inventory] *)
Module Inventory.
Import Py.

(** What a cell of a [self.products] dictionary holds. *)
Inductive value : Type :=
| VStr (s : string)
| VInt (z : Z)
| VDate (d : Date.date).

(** One dictionary of [self.products]: the four keys of the csv header. *)
Record item : Type := mkitem {
  product_name : value;
  product_price : value;
  product_quantity : value;
  date_updated : value
}.

(** One data line of [inventory.csv] as csv.DictReader hands it over. *)
Record line : Type := mkline {
  csv_name : string;
  csv_price : string;
  csv_quantity : string;
  csv_date : string
}.

(** What the program reads and writes. What it prints is left out. *)
Record world : Type := mkworld {
  products : list item;             (* self.products *)
  db : Db.table;                    (* inventory.db *)
  inventory_csv : list line;        (* inventory.csv, below its header *)
  backup_csv : list (list string);  (* backup.csv, row by row *)
  stdin : list string;              (* the lines the user will type *)
  today : Date.date                 (* the clock *)
}.

(** *** State with exceptions *)

Definition ST (S A : Type) : Type := S -> result A * S.

Definition ret {S A : Type} (a : A) : ST S A := fun s => (Ok a, s).

Definition raise {S A : Type} (e : exn) : ST S A := fun s => (Raise e, s).

Definition bindS {S A B : Type} (m : ST S A) (k : A -> ST S B) : ST S B :=
  fun s => match m s with
           | (Ok a, s') => k a s'
           | (Raise e, s') => (Raise e, s')
           end.

Definition lift {S A : Type} (r : result A) : ST S A := fun s => (r, s).

Definition gets {S A : Type} (f : S -> A) : ST S A := fun s => (Ok (f s), s).

Definition modify {S : Type} (f : S -> S) : ST S unit := fun s => (Ok tt, f s).

Notation "x <~ m ;; k" := (bindS m (fun x => k))
  (at level 61, m at next level, right associativity).
Notation "m ;;; k" := (bindS m (fun _ => k))
  (at level 61, right associativity).

Definition M (A : Type) : Type := ST world A.

Definition set_products (ps : list item) (w : world) : world :=
  mkworld ps (db w) (inventory_csv w) (backup_csv w) (stdin w) (today w).

Definition set_db (t : Db.table) (w : world) : world :=
  mkworld (products w) t (inventory_csv w) (backup_csv w) (stdin w) (today w).

Definition set_backup_csv (f : list (list string)) (w : world) : world :=
  mkworld (products w) (db w) (inventory_csv w) f (stdin w) (today w).

Definition set_stdin (l : list string) (w : world) : world :=
  mkworld (products w) (db w) (inventory_csv w) (backup_csv w) l (today w).

(** A loop [for x in xs: body] whose body changes [x] in place; an
    exception leaves the elements after it as they were. *)
Fixpoint for_each {S : Type} (body : ST S unit) (xs : list S)
  : result unit * list S :=
  match xs with
  | [] => (Ok tt, [])
  | x :: rest =>
      match body x with
      | (Ok _, x') => let (r, rest') := for_each body rest in (r, x' :: rest')
      | (Raise e, x') => (Raise e, x' :: rest)
      end
  end.

(** input(): the next line typed, EOFError when there is none. *)
Definition input : M string :=
  fun w => match stdin w with
           | l :: rest => (Ok l, set_stdin rest w)
           | [] => (Raise EOFError, w)
           end.

(** [s.upper() == c] for a capital letter [c]: below 256 only the
    letter itself and its small form become [c]. *)
Definition upper_is (s : string) (c : ascii) : bool :=
  match s with
  | String a EmptyString => Ascii.eqb (lower a) (lower c)
  | _ => false
  end.

(** *** Startup: inventory.csv into the table *)

Definition _init_db : M unit := ret tt.

(** The dictionary csv.DictReader makes of a line. *)
Definition dict_of_line (l : line) : item :=
  mkitem (VStr (csv_name l)) (VStr (csv_price l))
    (VStr (csv_quantity l)) (VStr (csv_date l)).

Definition _load_csv : M unit :=
  rows <~ gets inventory_csv ;;
  modify (set_products (map dict_of_line rows)).

(** int(float(re.search(r"\d+.?\d{0,2}", v).group()) * 100) *)
Definition price_cents (v : value) : result Z :=
  match v with
  | VStr s =>
      match Re.search s with
      | Some g =>
          f <- float_of_string g ;;
          int_of_float (fmul f (float_of_int 100))
      | None => Raise AttributeError
      end
  | _ => Raise TypeError
  end.

(** int(v) *)
Definition int_of_value (v : value) : result Z :=
  match v with
  | VStr s => int_of_string s
  | VInt z => Ok z
  | VDate _ => Raise TypeError
  end.

(** datetime.datetime.strptime(v, "%m/%d/%Y").date() *)
Definition strptime_value (v : value) : result Date.date :=
  match v with
  | VStr s => Date.strptime s
  | _ => Raise TypeError
  end.

Definition set_price (v : value) (p : item) : item :=
  mkitem (product_name p) v (product_quantity p) (date_updated p).

Definition set_quantity (v : value) (p : item) : item :=
  mkitem (product_name p) (product_price p) v (date_updated p).

Definition set_date (v : value) (p : item) : item :=
  mkitem (product_name p) (product_price p) (product_quantity p) v.

(** The body of the loop of [_convert_csv]. *)
Definition convert_csv_item : ST item unit :=
  v <~ gets product_price ;;
  cents <~ lift (price_cents v) ;;
  modify (set_price (VInt cents)) ;;;
  v <~ gets product_quantity ;;
  q <~ lift (int_of_value v) ;;
  modify (set_quantity (VInt q)) ;;;
  v <~ gets date_updated ;;
  d <~ lift (strptime_value v) ;;
  modify (set_date (VDate d)).

Definition _convert_csv : M unit :=
  fun w => let (r, ps) := for_each convert_csv_item (products w) in
           (r, set_products ps w).

Definition _wait : M unit := input ;;; ret tt.

(** The four assignments to a fresh [Product()]. The program stores
    rows only after their conversion, a [str] name with [int] quantity
    and price and a date; what peewee would make of other kinds is not
    modelled. *)
Definition new_product (p : item) : result Db.Product :=
  match product_name p, product_quantity p, product_price p, date_updated p with
  | VStr n, VInt q, VInt c, VDate d => Ok (Db.mkProduct None n q c d)
  | _, _, _, _ => Raise TypeError
  end.

Definition _update_latest (new : Db.Product) (verbose : bool) : M unit :=
  t <~ gets db ;;
  existing <~ lift (Db.get_by_name t (Db.product_name new)) ;;
  (if Date.ltb (Db.date_updated existing) (Db.date_updated new)
   then
     let existing' :=
       Db.mkProduct (Db.product_id existing) (Db.product_name existing)
         (Db.product_quantity new) (Db.product_price new)
         (Db.date_updated new) in
     saved <~ lift (Db.save t existing') ;;
     modify (set_db (fst saved))
   else ret tt) ;;;
  (if verbose then _wait else ret tt).

(** The loop of [_save_csv]; [count] counts the saves that went
    through. *)
Fixpoint save_rows (ps : list item) (count : Z) : M Z :=
  match ps with
  | [] => ret count
  | product :: rest =>
      new <~ lift (new_product product) ;;
      t <~ gets db ;;
      match Db.save t new with
      | Ok (t', _) => modify (set_db t') ;;; save_rows rest (count + 1)
      | Raise IntegrityError => _update_latest new false ;;; save_rows rest count
      | Raise e => raise e
      end
  end.

(** Returns the count it prints. *)
Definition _save_csv : M Z :=
  ps <~ gets products ;;
  count <~ save_rows ps 0 ;;
  modify (set_products []) ;;;
  _wait ;;;
  ret count.

(** *** Adding one product *)

(** The three loops of [_get_product_info], over the lines typed;
    [None] when the user gives up. *)
Fixpoint ask_name (ins : list string) : result (option string) * list string :=
  match ins with
  | [] => (Raise EOFError, [])
  | a :: r =>
      if upper_is a "Q" then (Ok None, r)
      else if String.eqb a "" then
        match r with
        | [] => (Raise EOFError, [])
        | confirm :: r' =>
            if upper_is confirm "Y" then (Ok None, r') else ask_name r'
        end
      else (Ok (Some a), r)
  end.

Fixpoint ask_quantity (ins : list string) : result (option Z) * list string :=
  match ins with
  | [] => (Raise EOFError, [])
  | a :: r =>
      if upper_is a "Q" then (Ok None, r)
      else match int_of_string a with
           | Ok q => (Ok (Some q), r)
           | Raise ValueError => ask_quantity r
           | Raise e => (Raise e, r)
           end
  end.

Fixpoint ask_price (ins : list string) : result (option Z) * list string :=
  match ins with
  | [] => (Raise EOFError, [])
  | a :: r =>
      if upper_is a "Q" then (Ok None, r)
      else match (f <- float_of_string a ;;
                  int_of_float (fmul f (float_of_int 100))) with
           | Ok c => (Ok (Some c), r)
           | Raise ValueError => ask_price r
           | Raise e => (Raise e, r)
           end
  end.

(** Runs a loop over the lines typed. *)
Definition reading {A : Type} (loop : list string -> result A * list string)
  : M A :=
  fun w => let (r, rest) := loop (stdin w) in (r, set_stdin rest w).

Definition _get_product_info : M (option Db.Product) :=
  name <~ reading ask_name ;;
  match name with
  | None => ret None
  | Some n =>
      quantity <~ reading ask_quantity ;;
      match quantity with
      | None => ret None
      | Some q =>
          price <~ reading ask_price ;;
          match price with
          | None => ret None
          | Some c =>
              d <~ gets today ;;
              ret (Some (Db.mkProduct None n q c d))
          end
      end
  end.

Fixpoint ask_confirm (ins : list string) : result bool * list string :=
  match ins with
  | [] => (Raise EOFError, [])
  | a :: r =>
      if upper_is a "Y" then (Ok true, r)
      else if upper_is a "N" then (Ok false, r)
      else ask_confirm r
  end.

Definition _confirm : M bool := reading ask_confirm.

Definition _save_product (new : Db.Product) : M unit :=
  t <~ gets db ;;
  match Db.save t new with
  | Ok (t', _) => modify (set_db t') ;;; _wait
  | Raise IntegrityError => _update_latest new true
  | Raise e => raise e
  end.

Definition _add_product : M unit :=
  new <~ _get_product_info ;;
  match new with
  | Some p =>
      yes <~ _confirm ;;
      if yes then _save_product p else ret tt
  | None => ret tt
  end.

(** *** Backup: the table into backup.csv *)

Definition _load_db : M unit :=
  t <~ gets db ;;
  ps <~ gets products ;;
  modify (set_products
            (ps ++ map (fun r => mkitem (VStr (Db.product_name r))
                                   (VInt (Db.product_price r))
                                   (VInt (Db.product_quantity r))
                                   (VDate (Db.date_updated r))) t)%list).

(** f"${v/100}" *)
Definition price_text (v : value) : result string :=
  match v with
  | VInt c => f <- truediv c 100 ;; Ok ("$" ++ repr_float f)
  | _ => Raise TypeError
  end.

(** str(v) *)
Definition str (v : value) : string :=
  match v with
  | VStr s => s
  | VInt z => str_of_int z
  | VDate d => Date.isoformat d
  end.

(** datetime.datetime.strftime(v, "%m/%d/%Y") *)
Definition strftime_value (v : value) : result string :=
  match v with
  | VDate d => Ok (Date.strftime d)
  | _ => Raise TypeError
  end.

(** The body of the loop of [_convert_db]. *)
Definition convert_db_item : ST item unit :=
  v <~ gets product_price ;;
  s <~ lift (price_text v) ;;
  modify (set_price (VStr s)) ;;;
  v <~ gets product_quantity ;;
  modify (set_quantity (VStr (str v))) ;;;
  v <~ gets date_updated ;;
  s <~ lift (strftime_value v) ;;
  modify (set_date (VStr s)).

Definition _convert_db : M unit :=
  fun w => let (r, ps) := for_each convert_db_item (products w) in
           (r, set_products ps w).

Definition fieldnames : list string :=
  ["product_name"; "product_price"; "product_quantity"; "date_updated"].

(** The cells csv.DictWriter writes for one dictionary, in the order of
    [fieldnames]. *)
Definition cells (p : item) : list string :=
  [str (product_name p); str (product_price p);
   str (product_quantity p); str (date_updated p)].

(** Opening with "w" empties the file; then the header and one row for
    each element of [self.products]. *)
Definition _save_db : M unit :=
  ps <~ gets products ;;
  modify (set_backup_csv (fieldnames :: map cells ps)) ;;;
  _wait.

Definition _backup : M unit :=
  _load_db ;;; _convert_db ;;; _save_db.

(** *** [go] up to the menu *)

(** The calls of [go] before [_main_loop]. *)
Definition go_startup : M Z :=
  _init_db ;;; _load_csv ;;; _convert_csv ;;; _save_csv.

End Inventory.

(** ** What the properties speak of *)
Module Spec.
Import Py.
Import Inventory.

(** What SQLite keeps true of the table: names and ids are unique and
    every row has an id. *)
Definition wf (t : Db.table) : Prop :=
  NoDup (map Db.product_name t)
  /\ NoDup (map Db.product_id t)
  /\ Forall (fun r => Db.product_id r <> None) t.

(** The converted dictionary a candidate comes from. *)
Definition item_of (new : Db.Product) : item :=
  mkitem (VStr (Db.product_name new)) (VInt (Db.product_price new))
    (VInt (Db.product_quantity new)) (VDate (Db.date_updated new)).

(** The row a candidate becomes under the id [i]. *)
Definition stored (i : Z) (new : Db.Product) : Db.Product :=
  Db.mkProduct (Some i) (Db.product_name new) (Db.product_quantity new)
    (Db.product_price new) (Db.date_updated new).

(** The row [r] with quantity, price and date taken from [new]. *)
Definition overwrite (new r : Db.Product) : Db.Product :=
  Db.mkProduct (Db.product_id r) (Db.product_name r)
    (Db.product_quantity new) (Db.product_price new) (Db.date_updated new).

(** The table after [new] was reconciled into [t], as the
    specification words it: a new row when the name is not there, the
    row of that name overwritten when the candidate is newer, nothing
    otherwise. *)
Definition reconciled (t : Db.table) (new : Db.Product) : Db.table :=
  match find (Db.has_name (Db.product_name new)) t with
  | None => (t ++ [stored (Db.next_id t) new])%list
  | Some existing =>
      if Date.ltb (Db.date_updated existing) (Db.date_updated new)
      then map (fun r => if Db.has_name (Db.product_name new) r
                         then overwrite new r else r) t
      else t
  end.

(** The two ways a candidate reaches the table: as the one row of a
    batch [_save_csv] works through, or through [_save_product]. *)
Inductive path : Type := Batch | Interactive.

Definition reconcile (p : path) (new : Db.Product) : M unit :=
  match p with
  | Batch => modify (set_products [item_of new]) ;;; _save_csv ;;; ret tt
  | Interactive => _save_product new
  end.

(** The world a call leaves behind, whether it returned or raised. *)
Definition run {A : Type} (m : M A) (w : world) : world := snd (m w).

(** One thing that happens to the world: a call of the program, or a
    change from outside that leaves the table alone (the user types, the
    csv files are edited, a day passes). *)
Inductive step : world -> world -> Prop :=
| step_startup w : step w (run go_startup w)
| step_add w : step w (run _add_product w)
| step_backup w : step w (run _backup w)
| step_reconcile p new w :
    Db.product_id new = None -> step w (run (reconcile p new) w)
| step_outside w w' : db w' = db w -> step w w'.

Inductive steps : world -> world -> Prop :=
| steps_nil w : steps w w
| steps_cons w1 w2 w3 : step w1 w2 -> steps w2 w3 -> steps w1 w3.

(** round(amount * 100) for the decimal amount [s], computed exactly. *)
Definition cents_of_amount (s : string) : option Z :=
  match parse_decimal s with
  | Some (m, e) =>
      Some (if 0 <=? e + 2 then m * 10 ^ (e + 2)
            else round_half_even m (10 ^ (- (e + 2))))
  | None => None
  end.

(** A dollar sign, digits, a point and exactly two digits. *)
Definition two_decimals (s : string) : bool :=
  match s with
  | String "$" r =>
      let (ip, r1) := span_digits r in
      match r1 with
      | String "." f =>
          let (fp, r2) := span_digits f in
          negb (String.eqb ip "") && (slen fp =? 2) && String.eqb r2 ""
      | _ => false
      end
  | _ => false
  end.

(** The amount of [c] cents with a zero at the end of the cents left
    out: 1250 gives 12.5 and 1205 gives 12.05. *)
Definition short_amount (c : Z) : string :=
  nat_to_string (c / 100) ++ "."
    ++ nat_to_string (c / 10 mod 10)
    ++ (if c mod 10 =? 0 then "" else nat_to_string (c mod 10)).

(** A dictionary of [self.products] after [_convert_db], for a row of
    the table and the text of its price. *)
Definition converted (price : string) (r : Db.Product) : item :=
  mkitem (VStr (Db.product_name r)) (VStr price)
    (VStr (str_of_int (Db.product_quantity r)))
    (VStr (Date.strftime (Db.date_updated r))).

(** The row of backup.csv for a row of the table and the text of its
    price: name, price, quantity, and the date as month, day, year. *)
Definition exported (price : string) (r : Db.Product) : list string :=
  [Db.product_name r;
   price;
   str_of_int (Db.product_quantity r);
   Date.two_digits (Date.month (Db.date_updated r)) ++ "/"
     ++ Date.two_digits (Date.day (Db.date_updated r)) ++ "/"
     ++ nat_to_string (Date.year (Db.date_updated r))].

(** Whether [c] cents are shown as a dollar sign and [short_amount]. *)
Definition shown_short (c : Z) : bool :=
  match price_text (VInt c) with
  | Ok s => String.eqb s ("$" ++ short_amount c)
  | Raise _ => false
  end.

(** A float that is not below zero (NaN counts: it has no sign to
    speak of). *)
Definition nonneg (f : float) : Prop :=
  match f with
  | Fin s m _ => s = false /\ 0 <= m
  | Inf s => s = false
  | NaN => True
  end.

Definition has_digit (s : string) : bool :=
  existsb isdigit (list_ascii_of_string s).

End Spec.

(** ** Worlds and candidates of the examples *)
Module Examples.
Import Py Inventory Spec.
Definition jan1 : Date.date := Date.mkdate 2024 1 1.
Definition gadget : Db.Product := Db.mkProduct None "Gadget" 7 1250 jan1.
(** A world around a table: nothing loaded, both files empty, one line
    typed. *)
Definition world_of (t : Db.table) : world :=
  mkworld [] t [] [] [""] (Date.mkdate 2026 11 3).
Definition widget_line1 : line := mkline "Widget" "$1.00" "5" "1/1/2024".
Definition widget_line2 : line := mkline "Widget" "$2.00" "3" "2/1/2024".
Definition gadget_line : line := mkline "Gadget" "$12.50" "7" "3/4/2024".
Definition returns_line : line := mkline "Returns" "$0.29" "-5" "3/4/2024".
(** A first run: an empty table, [rows] in inventory.csv, [typed] on
    the keyboard. *)
Definition first_run (rows : list line) (typed : list string) : world :=
  mkworld [] [] rows [] typed (Date.mkdate 2026 11 3).
Definition shop : world :=
  first_run [widget_line1; widget_line2; gadget_line]
    [""; "Widget"; "4"; "9.99"; "y"; ""].
(** A price of 310 digits. *)
Definition huge_price : string := String "1" (zeros 309).
End Examples.

(** ** The view of a product, the menu and the main loop *)
Module Shell.
Import Py Inventory.

(** Product.get(Product.product_id == i) *)
Definition get_by_id (t : Db.table) (i : Z) : result Db.Product :=
  match find (Db.has_id i) t with
  | Some r => Ok r
  | None => Raise DoesNotExist
  end.

(** The loop of [_view_product] over the lines typed: the product that
    was found, [None] when the user goes back to the menu. *)
Fixpoint ask_id (t : Db.table) (ins : list string)
  : result (option Db.Product) * list string :=
  match ins with
  | [] => (Raise EOFError, [])
  | response :: r =>
      if String.eqb response "" then
        match r with
        | [] => (Raise EOFError, [])
        | confirm :: r' =>
            if upper_is confirm "Y" then (Ok None, r') else ask_id t r'
        end
      else if upper_is response "Q" then (Ok None, r)
      else match int_of_string response with
           | Ok i =>
               match get_by_id t i with
               | Ok product => (Ok (Some product), r)
               | Raise DoesNotExist => ask_id t r
               | Raise e => (Raise e, r)
               end
           | Raise ValueError => ask_id t r
           | Raise e => (Raise e, r)
           end
  end.

(** Of what is printed only the division of the price can raise. *)
Definition _view_product : M unit :=
  t <~ gets db ;;
  found <~ reading (ask_id t) ;;
  match found with
  | Some product => lift (truediv (Db.product_price product) 100) ;;; _wait
  | None => ret tt
  end.

(** The values of [menu_options]. *)
Inductive action : Type := View | Add | Backup | Quit.

Definition menu_options : list (ascii * action) :=
  [("V"%char, View); ("A"%char, Add); ("B"%char, Backup); ("Q"%char, Quit)].

(** [Menu._get] and the lookup in [menu_options]: the action under the
    key that the line typed, in capitals, is. *)
Definition chosen (typed : string) : option action :=
  option_map snd (find (fun kv => upper_is typed (fst kv)) menu_options).

(** The loop of [Menu.go] over the lines typed. *)
Fixpoint ask_choice (ins : list string) : result action * list string :=
  match ins with
  | [] => (Raise EOFError, [])
  | typed :: r =>
      match chosen typed with
      | Some a => (Ok a, r)
      | None => ask_choice r
      end
  end.

(** How the program ends: sys.exit() in [_quit], or an exception that
    nothing catches. *)
Inductive ending : Type :=
| Exit
| Crash (e : exn).

(** self.menu.action(): [None] when the action returns. *)
Definition perform (a : action) (w : world) : option ending * world :=
  let returned (r : result unit * world) :=
    match r with
    | (Ok _, w') => (None, w')
    | (Raise e, w') => (Some (Crash e), w')
    end in
  match a with
  | View => returned (_view_product w)
  | Add => returned (_add_product w)
  | Backup => returned (_backup w)
  | Quit => (Some Exit, w)
  end.

(** [while True: self.menu.go(); self.menu.action()], for at most
    [fuel] turns; [None] when the turns run out before the program
    ends. *)
Fixpoint _main_loop (fuel : nat) (w : world) : option (ending * world) :=
  match fuel with
  | O => None
  | S f =>
      match reading ask_choice w with
      | (Ok a, w1) =>
          match perform a w1 with
          | (None, w2) => _main_loop f w2
          | (Some e, w2) => Some (e, w2)
          end
      | (Raise e, w1) => Some (Crash e, w1)
      end
  end.

Definition go (fuel : nat) (w : world) : option (ending * world) :=
  match go_startup w with
  | (Ok _, w1) => _main_loop fuel w1
  | (Raise e, w1) => Some (Crash e, w1)
  end.

End Shell.

(** ** What the further properties speak of *)
Module Extra.
Import Py Inventory Spec Shell.

(** The candidate that [_convert_csv] and [_save_csv] make of a line. *)
Definition candidate_of_line (l : line) : result Db.Product :=
  cents <- price_cents (VStr (csv_price l)) ;;
  q <- int_of_string (csv_quantity l) ;;
  d <- Date.strptime (csv_date l) ;;
  Ok (Db.mkProduct None (csv_name l) q cents d).

(** The candidates of the lines in their order, up to the first line
    that does not convert. *)
Fixpoint candidates (ls : list line) : result (list Db.Product) :=
  match ls with
  | [] => Ok []
  | l :: rest =>
      c <- candidate_of_line l ;;
      cs <- candidates rest ;;
      Ok (c :: cs)
  end.

(** The table holds a row of the name of [c] that is dated like [c] or
    later. *)
Definition covered (t : Db.table) (c : Db.Product) : Prop :=
  exists r, Db.get_by_name t (Db.product_name c) = Ok r
            /\ Date.ltb (Db.date_updated r) (Db.date_updated c) = false.

(** [r'] is [r] some time later: the same id and name, a date that is
    not earlier. *)
Definition kept (r r' : Db.Product) : Prop :=
  Db.product_id r' = Db.product_id r
  /\ Db.product_name r' = Db.product_name r
  /\ Date.ltb (Db.date_updated r') (Db.date_updated r) = false.

(** [t'] has the rows of [t] in their places, each one kept, and new
    rows after them. *)
Definition grows (t t' : Db.table) : Prop :=
  exists old added, t' = (old ++ added)%list /\ Forall2 kept t old.

(** int(float(s) * 100), as the price prompt computes it. *)
Definition typed_cents (s : string) : result Z :=
  f <- float_of_string s ;; int_of_float (fmul f (float_of_int 100)).




(** Every character is a digit. *)
Fixpoint all_digits (s : string) : bool :=
  match s with
  | String c r => isdigit c && all_digits r
  | EmptyString => true
  end.

(** The lines still to be read in [w'] are what is left of those in [w]
    after some were read. *)
Definition reads_on (w w' : world) : Prop :=
  exists used, stdin w = (used ++ stdin w')%list.

(** A call that only ever reads lines, and puts none back. *)
Definition reader {A : Type} (m : M A) : Prop :=
  forall w, reads_on w (run m w).

(** The same for a loop over the lines typed. *)
Definition line_reader {A : Type}
  (loop : list string -> result A * list string) : Prop :=
  forall ins, exists used, ins = (used ++ snd (loop ins))%list.

End Extra.

(** * Properties *)

Import Py Inventory Spec Examples.
Open Scope list_scope.

(** Checks [wf] on a table that is written out. *)
Ltac table_ok :=
  unfold wf; cbn; repeat split; repeat constructor; cbn;
  try (intuition discriminate); try discriminate.

(** Case analysis on the 256 characters. *)
Ltac each_char c :=
  destruct c as [[] [] [] [] [] [] [] []].

(** ** Facts about the table *)

Lemma find_none_existsb (A : Type) (f : A -> bool) (l : list A) :
  find f l = None <-> existsb f l = false.
Proof.
  induction l as [|a l IH]; simpl; [tauto|].
  destruct (f a); simpl; [split; discriminate | exact IH].
Qed.

Lemma find_some_existsb (A : Type) (f : A -> bool) (l : list A) (a : A) :
  find f l = Some a -> existsb f l = true.
Proof.
  intros H. destruct (existsb f l) eqn:E; [reflexivity|].
  apply find_none_existsb in E. congruence.
Qed.

Lemma next_id_above (t : Db.table) (r : Db.Product) (i : Z) :
  In r t -> Db.product_id r = Some i -> i < Db.next_id t.
Proof.
  unfold Db.next_id. induction t as [|a t IH]; cbn [fold_right In]; [tauto|].
  intros [->|Hin] Hi.
  - rewrite Hi. lia.
  - specialize (IH Hin Hi). destruct (Db.product_id a); lia.
Qed.

Lemma next_id_fresh (t : Db.table) :
  ~ In (Some (Db.next_id t)) (map Db.product_id t).
Proof.
  intros H. apply in_map_iff in H. destruct H as [r [Hr Hin]].
  pose proof (next_id_above t r _ Hin Hr). lia.
Qed.

Lemma NoDup_snoc (A : Type) (l : list A) (a : A) :
  NoDup l -> ~ In a l -> NoDup (l ++ [a]).
Proof.
  intros Hl Ha. apply NoDup_app; [exact Hl | constructor; [simpl; tauto | constructor] |].
  intros x Hx [<-|[]]. exact (Ha Hx).
Qed.

Lemma has_name_iff (n : string) (r : Db.Product) :
  Db.has_name n r = true <-> Db.product_name r = n.
Proof. unfold Db.has_name. apply String.eqb_eq. Qed.

Lemma name_absent (t : Db.table) (n : string) :
  existsb (Db.has_name n) t = false -> ~ In n (map Db.product_name t).
Proof.
  intros H Hin. apply in_map_iff in Hin. destruct Hin as [r [Hr Hin]].
  assert (existsb (Db.has_name n) t = true); [|congruence].
  apply existsb_exists. exists r. split; [exact Hin | now apply has_name_iff].
Qed.

Lemma wf_nil : wf [].
Proof. repeat split; constructor. Qed.

Lemma wf_insert (t : Db.table) (new : Db.Product) :
  wf t -> existsb (Db.has_name (Db.product_name new)) t = false ->
  wf (t ++ [stored (Db.next_id t) new]).
Proof.
  intros (Hn & Hi & Hs) Habs. unfold wf. rewrite !map_app. simpl.
  repeat split.
  - apply NoDup_snoc; [exact Hn | now apply name_absent].
  - apply NoDup_snoc; [exact Hi | apply next_id_fresh].
  - apply Forall_app. split; [exact Hs|]. constructor; [discriminate | constructor].
Qed.

(** Rows of a table with unique names are told apart by their names. *)
Lemma NoDup_map_inj (A B : Type) (f : A -> B) (l : list A) (a b : A) :
  NoDup (map f l) -> In a l -> In b l -> f a = f b -> a = b.
Proof.
  induction l as [|x l IH]; simpl; [tauto|].
  intros Hnd Ha Hb Hf. inversion Hnd as [|? ? Hx Hl]; subst.
  destruct Ha as [->|Ha], Hb as [->|Hb]; auto.
  - exfalso. apply Hx. rewrite Hf. now apply in_map.
  - exfalso. apply Hx. rewrite <- Hf. now apply in_map.
Qed.

Lemma has_id_iff (i : Z) (r : Db.Product) :
  Db.has_id i r = true <-> Db.product_id r = Some i.
Proof.
  unfold Db.has_id. destruct (Db.product_id r) as [j|].
  - rewrite Z.eqb_eq. split; congruence.
  - split; discriminate.
Qed.

(** In a well-formed table the row with the id of [existing] is the row
    with its name. *)
Lemma same_row (t : Db.table) (existing r : Db.Product) (i : Z) :
  wf t -> In existing t -> In r t -> Db.product_id existing = Some i ->
  Db.has_id i r = Db.has_name (Db.product_name existing) r.
Proof.
  intros (Hn & Hi & _) He Hr Hid.
  destruct (Db.has_id i r) eqn:E1, (Db.has_name (Db.product_name existing) r) eqn:E2;
    try reflexivity; exfalso.
  - apply has_id_iff in E1.
    assert (r = existing)
      by (apply (NoDup_map_inj _ _ Db.product_id t r existing Hi Hr He); congruence).
    subst r. unfold Db.has_name in E2. rewrite String.eqb_refl in E2. discriminate.
  - apply has_name_iff in E2.
    assert (r = existing)
      by (apply (NoDup_map_inj _ _ Db.product_name t r existing Hn Hr He); congruence).
    subst r. apply has_id_iff in Hid. congruence.
Qed.

Lemma overwrite_in_place (t : Db.table) (new existing : Db.Product) :
  wf t ->
  find (Db.has_name (Db.product_name new)) t = Some existing ->
  Db.save t (overwrite new existing)
  = Ok (map (fun r => if Db.has_name (Db.product_name new) r
                      then overwrite new r else r) t,
        overwrite new existing).
Proof.
  intros Hwf Hf. pose proof Hwf as (Hn & Hi & Hs).
  destruct (find_some _ _ Hf) as [Hin Hname]. apply has_name_iff in Hname.
  rewrite Forall_forall in Hs. pose proof (Hs _ Hin) as Hid.
  destruct (Db.product_id existing) as [i|] eqn:Ei; [clear Hid | congruence].
  unfold Db.save. simpl. rewrite Ei.
  assert (Hno : existsb (fun r => Db.has_name (Db.product_name existing) r
                                  && negb (Db.has_id i r)) t = false).
  { destruct (existsb _ t) eqn:E; [|reflexivity]. exfalso.
    apply existsb_exists in E. destruct E as [r [Hr E]].
    rewrite <- (same_row t existing r i Hwf Hin Hr Ei) in E.
    destruct (Db.has_id i r); discriminate. }
  rewrite Hno, andb_false_r. f_equal. f_equal.
  apply map_ext_in. intros r Hr.
  rewrite (same_row t existing r i Hwf Hin Hr Ei), Hname.
  destruct (Db.has_name (Db.product_name new) r) eqn:E; [|reflexivity].
  apply has_name_iff in E.
  assert (r = existing)
    by (apply (NoDup_map_inj _ _ Db.product_name t r existing Hn Hr Hin); congruence).
  now subst r.
Qed.

Lemma wf_overwrite (t : Db.table) (new : Db.Product) :
  wf t ->
  wf (map (fun r => if Db.has_name (Db.product_name new) r
                    then overwrite new r else r) t).
Proof.
  intros (Hn & Hi & Hs). unfold wf. rewrite !map_map.
  rewrite (map_ext _ Db.product_name), (map_ext (fun r => Db.product_id _) Db.product_id).
  - repeat split; auto. apply Forall_map. eapply Forall_impl; [|exact Hs].
    intros r Hr. simpl. destruct (Db.has_name _ r); exact Hr.
  - intros r. destruct (Db.has_name _ r); reflexivity.
  - intros r. destruct (Db.has_name _ r); reflexivity.
Qed.

Lemma wf_reconciled (t : Db.table) (new : Db.Product) :
  wf t -> wf (reconciled t new).
Proof.
  intros Hwf. unfold reconciled.
  destruct (find _ t) as [existing|] eqn:Hf.
  - destruct (Date.ltb _ _); [now apply wf_overwrite | exact Hwf].
  - apply wf_insert; [exact Hwf | now apply find_none_existsb].
Qed.


(** ** One candidate through the program *)

Lemma wait_db (w : world) : db (run _wait w) = db w.
Proof.
  unfold run, _wait, bindS, input. destruct (stdin w); reflexivity.
Qed.

Lemma set_db_same (w : world) : set_db (db w) w = w.
Proof. destruct w; reflexivity. Qed.

Lemma save_fresh (t : Db.table) (new : Db.Product) :
  Db.product_id new = None ->
  Db.save t new
  = if existsb (Db.has_name (Db.product_name new)) t then Raise IntegrityError
    else Ok (t ++ [stored (Db.next_id t) new], stored (Db.next_id t) new).
Proof. intros H. unfold Db.save. rewrite H. reflexivity. Qed.

(** [_update_latest] without the pause: the world is the old one with
    the reconciled table. *)
Lemma update_latest_quiet (new : Db.Product) (w : world) :
  wf (db w) ->
  existsb (Db.has_name (Db.product_name new)) (db w) = true ->
  _update_latest new false w = (Ok tt, set_db (reconciled (db w) new) w).
Proof.
  intros Hwf Hex. unfold _update_latest, reconciled, bindS, gets, lift, Db.get_by_name.
  destruct (find _ (db w)) as [existing|] eqn:Hf.
  - destruct (Date.ltb _ _).
    + change (Db.mkProduct _ _ _ _ _) with (overwrite new existing).
      rewrite (overwrite_in_place _ _ _ Hwf Hf). reflexivity.
    + cbn. now rewrite set_db_same.
  - apply find_none_existsb in Hf. congruence.
Qed.

Lemma update_latest_db (new : Db.Product) (verbose : bool) (w : world) :
  wf (db w) ->
  existsb (Db.has_name (Db.product_name new)) (db w) = true ->
  db (run (_update_latest new verbose) w) = reconciled (db w) new.
Proof.
  intros Hwf Hex. destruct verbose.
  - unfold run, _update_latest, reconciled, bindS, gets, lift, Db.get_by_name.
    destruct (find _ (db w)) as [existing|] eqn:Hf.
    + destruct (Date.ltb _ _).
      * change (Db.mkProduct _ _ _ _ _) with (overwrite new existing).
        rewrite (overwrite_in_place _ _ _ Hwf Hf). cbn.
        apply (wait_db (set_db _ w)).
      * cbn. apply wait_db.
    + apply find_none_existsb in Hf. congruence.
  - unfold run. now rewrite update_latest_quiet.
Qed.

Lemma reconciled_absent (t : Db.table) (new : Db.Product) :
  existsb (Db.has_name (Db.product_name new)) t = false ->
  reconciled t new = t ++ [stored (Db.next_id t) new].
Proof.
  intros H. unfold reconciled. apply find_none_existsb in H. now rewrite H.
Qed.

Lemma save_product_db (new : Db.Product) (w : world) :
  wf (db w) -> Db.product_id new = None ->
  db (run (_save_product new) w) = reconciled (db w) new.
Proof.
  intros Hwf Hid. unfold run, _save_product, bindS, gets.
  rewrite (save_fresh _ _ Hid).
  destruct (existsb _ (db w)) eqn:Hex.
  - now apply update_latest_db.
  - rewrite (reconciled_absent _ _ Hex). unfold modify.
    apply (wait_db (set_db _ w)).
Qed.

(** One turn of the loop of [_save_csv]. *)
Lemma save_rows_cons (new : Db.Product) (rest : list item) (count : Z) (w : world) :
  wf (db w) -> Db.product_id new = None ->
  save_rows (item_of new :: rest) count w
  = save_rows rest
      (if existsb (Db.has_name (Db.product_name new)) (db w)
       then count else count + 1)
      (set_db (reconciled (db w) new) w).
Proof.
  intros Hwf Hid. cbn [save_rows]. unfold bindS at 1. cbn [lift item_of new_product
    product_name product_price product_quantity date_updated].
  assert (Hnew : Db.mkProduct None (Db.product_name new) (Db.product_quantity new)
                   (Db.product_price new) (Db.date_updated new) = new)
    by (destruct new; simpl in *; congruence).
  rewrite Hnew. unfold bindS at 1, gets at 1.
  rewrite (save_fresh _ _ Hid).
  destruct (existsb _ (db w)) eqn:Hex.
  - unfold bindS at 1. now rewrite update_latest_quiet.
  - rewrite (reconciled_absent _ _ Hex). reflexivity.
Qed.

Lemma new_product_item (p : item) (new : Db.Product) :
  new_product p = Ok new -> p = item_of new /\ Db.product_id new = None.
Proof.
  unfold new_product. destruct p as [[] [] [] []]; try discriminate.
  intros H. injection H as <-. split; reflexivity.
Qed.

Lemma save_rows_wf (ps : list item) (count : Z) (w : world) :
  wf (db w) -> wf (db (run (save_rows ps count) w)).
Proof.
  revert count w. induction ps as [|p ps IH]; intros count w Hwf; [exact Hwf|].
  destruct (new_product p) as [new|e] eqn:Hp.
  - destruct (new_product_item _ _ Hp) as [-> Hid].
    unfold run. rewrite (save_rows_cons _ _ _ _ Hwf Hid).
    apply IH. now apply wf_reconciled.
  - unfold run. cbn [save_rows]. unfold bindS at 1, lift at 1. rewrite Hp. exact Hwf.
Qed.

Lemma save_csv_db (w : world) :
  db (run _save_csv w) = db (run (save_rows (products w) 0) w).
Proof.
  unfold run, _save_csv, bindS at 1, gets at 1. unfold bindS at 1.
  destruct (save_rows (products w) 0 w) as [[count|e] w']; [|reflexivity].
  unfold bindS at 1, modify at 1. cbn [snd].
  unfold bindS. unfold _wait, bindS, input, ret. cbn.
  destruct (stdin w'); reflexivity.
Qed.

Lemma reconcile_db (p : path) (new : Db.Product) (w : world) :
  wf (db w) -> Db.product_id new = None ->
  db (run (reconcile p new) w) = reconciled (db w) new.
Proof.
  intros Hwf Hid. destruct p.
  - set (w1 := set_products [item_of new] w).
    assert (Hwf1 : wf (db w1)) by exact Hwf.
    pose proof (save_csv_db w1) as H. unfold run in H.
    unfold run, reconcile, bindS at 1, modify at 1. fold w1.
    unfold bindS at 1.
    destruct (_save_csv w1) as [[c|e] w'] eqn:E;
      cbn [snd] in *; unfold ret; cbn [snd]; rewrite H;
      change (products w1) with [item_of new];
      rewrite (save_rows_cons new [] 0 w1 Hwf1 Hid); reflexivity.
  - now apply save_product_db.
Qed.

(** ** Dates are strictly ordered *)

Lemma ltb_spec (a b : Date.date) :
  Date.ltb a b = true <->
  Date.year a < Date.year b
  \/ (Date.year a = Date.year b
      /\ (Date.month a < Date.month b
          \/ (Date.month a = Date.month b /\ Date.day a < Date.day b))).
Proof.
  unfold Date.ltb.
  rewrite !orb_true_iff, !andb_true_iff, !orb_true_iff, !andb_true_iff,
    !Z.ltb_lt, !Z.eqb_eq. tauto.
Qed.

Lemma ltb_irrefl (a : Date.date) : Date.ltb a a = false.
Proof.
  destruct (Date.ltb a a) eqn:E; [|reflexivity].
  apply ltb_spec in E. lia.
Qed.

Lemma ltb_trans (a b c : Date.date) :
  Date.ltb a b = true -> Date.ltb b c = true -> Date.ltb a c = true.
Proof. rewrite !ltb_spec. lia. Qed.

Lemma ltb_asym (a b : Date.date) :
  Date.ltb a b = true -> Date.ltb b a = false.
Proof.
  intros H. destruct (Date.ltb b a) eqn:E; [|reflexivity].
  apply ltb_spec in H, E. lia.
Qed.

(** ** The reconciled table *)

Lemma find_snoc (A : Type) (f : A -> bool) (l : list A) (a : A) :
  existsb f l = false -> f a = true -> find f (l ++ [a]) = Some a.
Proof.
  intros Hl Ha. induction l as [|x l IH]; simpl in *.
  - now rewrite Ha.
  - apply orb_false_iff in Hl. destruct Hl as [Hx Hl]. rewrite Hx. now apply IH.
Qed.


Lemma find_overwritten (n : string) (new existing : Db.Product) (t : Db.table) :
  find (Db.has_name n) t = Some existing ->
  find (Db.has_name n)
    (map (fun r => if Db.has_name n r then overwrite new r else r) t)
  = Some (overwrite new existing).
Proof.
  induction t as [|x t IH]; simpl; [discriminate|].
  destruct (Db.has_name n x) eqn:E.
  - intros H. injection H as <-.
    assert (Db.has_name n (overwrite new x) = true) as -> by exact E.
    reflexivity.
  - rewrite E. exact IH.
Qed.


Lemma has_name_stored (i : Z) (new : Db.Product) :
  Db.has_name (Db.product_name new) (stored i new) = true.
Proof. unfold Db.has_name. simpl. apply String.eqb_refl. Qed.



(** ** C1: the three cases of a reconcile *)





(** ** C5: importing a candidate twice *)



(** ** C6: an older and a newer candidate, in both orders *)




(** ** The startup import *)

(** [go] up to the menu: the rows are converted first, all of them, and
    saved only when that went through. *)
Lemma go_startup_eq (w : world) :
  go_startup w
  = match for_each convert_csv_item (map dict_of_line (inventory_csv w)) with
    | (Ok _, ps) => _save_csv (set_products ps w)
    | (Raise e, ps) => (Raise e, set_products ps w)
    end.
Proof.
  unfold go_startup, _init_db, _load_csv, _convert_csv, bindS, ret, gets, modify.
  cbn [products set_products].
  destruct (for_each convert_csv_item (map dict_of_line (inventory_csv w)))
    as [[[]|e] ps]; destruct w; reflexivity.
Qed.

Lemma go_startup_wf (w : world) : wf (db w) -> wf (db (run go_startup w)).
Proof.
  intros Hwf. unfold run. rewrite go_startup_eq.
  destruct (for_each _ _) as [[[]|e] ps]; [|exact Hwf].
  change (wf (db (run _save_csv (set_products ps w)))).
  rewrite save_csv_db. now apply save_rows_wf.
Qed.

(** ** Adding a product *)

Lemma reading_db (A : Type) (loop : list string -> result A * list string)
  (w : world) : db (run (reading loop) w) = db w.
Proof. unfold run, reading. destruct (loop (stdin w)). reflexivity. Qed.

Lemma get_product_info_fresh (w : world) :
  db (run _get_product_info w) = db w
  /\ forall p, fst (_get_product_info w) = Ok (Some p) -> Db.product_id p = None.
Proof.
  unfold run, _get_product_info, bindS, reading, gets, ret.
  destruct (ask_name (stdin w)) as [[[n|]|e] r1]; cbn;
    [|split; [reflexivity | discriminate]..].
  destruct (ask_quantity r1) as [[[q|]|e] r2]; cbn;
    [|split; [reflexivity | discriminate]..].
  destruct (ask_price r2) as [[[c|]|e] r3]; cbn;
    [|split; [reflexivity | discriminate]..].
  split; [reflexivity|]. intros p H. now injection H as <-.
Qed.

Lemma add_product_wf (w : world) : wf (db w) -> wf (db (run _add_product w)).
Proof.
  intros Hwf. destruct (get_product_info_fresh w) as [Hdb Hfresh].
  unfold run in *. unfold _add_product, bindS at 1.
  destruct (_get_product_info w) as [[[p|]|e] w1]; cbn [fst snd] in *.
  - unfold _confirm, bindS.
    pose proof (reading_db _ ask_confirm w1) as Hc. unfold run in Hc.
    destruct (reading ask_confirm w1) as [[[]|e] w2]; cbn [snd] in *.
    + change (wf (db (run (_save_product p) w2))).
      rewrite save_product_db; [| now rewrite Hc, Hdb | now apply Hfresh].
      apply wf_reconciled. now rewrite Hc, Hdb.
    + unfold ret. cbn [snd]. now rewrite Hc, Hdb.
    + now rewrite Hc, Hdb.
  - unfold ret. cbn [snd]. now rewrite Hdb.
  - now rewrite Hdb.
Qed.

(** ** The backup reads the table only *)

Lemma backup_db (w : world) : db (run _backup w) = db w.
Proof.
  unfold run, _backup, _load_db, _convert_db, _save_db, bindS, gets, modify.
  cbn [products set_products db].
  destruct (for_each convert_db_item _) as [[[]|e] ps]; cbn; [|reflexivity].
  unfold _wait, bindS, input, ret. cbn. destruct (stdin w); reflexivity.
Qed.

(** ** C2: one row for each name *)

Lemma step_wf (w w' : world) : step w w' -> wf (db w) -> wf (db w').
Proof.
  intros Hs Hwf. destruct Hs as [w|w|w|p new w Hid|w w' Hdb].
  - now apply go_startup_wf.
  - now apply add_product_wf.
  - now rewrite backup_db.
  - rewrite reconcile_db by assumption. now apply wf_reconciled.
  - now rewrite Hdb.
Qed.

(** C2. Whatever the program is made to do, in whatever order (the
    startup import, interactive adds, backups, single candidates through
    either path, with any files and any input in between), a table that
    had one row for each name keeps one row for each name. *)
Theorem one_row_per_name (w w' : world) :
  wf (db w) -> steps w w' -> NoDup (map Db.product_name (db w')).
Proof.
  intros Hwf Hsteps.
  assert (H : wf (db w')); [|exact (proj1 H)].
  induction Hsteps as [w|w1 w2 w3 Hs _ IH]; [exact Hwf|].
  apply IH. exact (step_wf _ _ Hs Hwf).
Qed.


Lemma one_row_per_name_witness :
  wf (db shop)
  /\ steps shop (run _add_product (run go_startup shop))
  /\ NoDup (map Db.product_name (db (run _add_product (run go_startup shop)))).
Proof.
  assert (Hwf : wf (db shop)) by table_ok.
  assert (Hsteps : steps shop (run _add_product (run go_startup shop))).
  { eapply steps_cons; [apply step_startup|].
    eapply steps_cons; [apply step_add | apply steps_nil]. }
  split; [exact Hwf | split; [exact Hsteps|]].
  exact (one_row_per_name _ _ Hwf Hsteps).
Defined.

Example shop_after_add :
  db (run _add_product (run go_startup shop))
  = [Db.mkProduct (Some 1) "Widget" 4 999 (Date.mkdate 2026 11 3);
     Db.mkProduct (Some 2) "Gadget" 7 1250 (Date.mkdate 2024 3 4)].
Proof. vm_compute. reflexivity. Qed.

(** ** C4: a malformed row in the batch *)





(** ** The price of an import row *)

Lemma digit_not_space (c : ascii) : isdigit c = true -> isspace c = false.
Proof. each_char c; intros H; solve [reflexivity | discriminate H]. Qed.

Lemma digit_not_underscore (c : ascii) :
  isdigit c = true -> Ascii.eqb c "_" = false.
Proof. each_char c; intros H; solve [reflexivity | discriminate H]. Qed.

Lemma digit_no_sign (c : ascii) (s : string) :
  isdigit c = true -> take_sign (String c s) = (false, String c s).
Proof. each_char c; intros H; solve [reflexivity | discriminate H]. Qed.

Lemma digit_val_nonneg (c : ascii) : isdigit c = true -> 0 <= digit_val c.
Proof.
  unfold isdigit, digit_val. intros H. apply andb_true_iff in H.
  destruct H as [H _]. apply Z.leb_le in H. lia.
Qed.

Lemma strip_digit_head (c : ascii) (r : string) :
  isdigit c = true -> exists r', strip (String c r) = String c r'.
Proof.
  intros H. unfold strip. cbn [lstrip]. rewrite (digit_not_space _ H).
  cbn [rstrip]. destruct (rstrip r); [|eauto].
  rewrite (digit_not_space _ H). eauto.
Qed.

Lemma digits_val_span_nonneg (s : string) (acc : Z) :
  0 <= acc -> 0 <= digits_val acc (fst (span_digits s)).
Proof.
  revert acc. induction s as [|c r IH]; intros acc Hacc; cbn [span_digits].
  - exact Hacc.
  - destruct (isdigit c) eqn:Hc; [|exact Hacc].
    specialize (IH (10 * acc + digit_val c)).
    destruct (span_digits r) as [d t]. cbn [fst digits_val] in *.
    apply IH. pose proof (digit_val_nonneg _ Hc). lia.
Qed.

Lemma parse_decimal_nonneg (s : string) (m e : Z) :
  parse_decimal s = Some (m, e) -> 0 <= m.
Proof.
  unfold parse_decimal.
  pose proof (digits_val_span_nonneg s 0 (Z.le_refl 0)) as Hip.
  destruct (span_digits s) as [ip r1]. cbn [fst] in Hip.
  assert (Hm : forall fp r2,
             (fp, r2) = match r1 with
                        | String "." r => span_digits r
                        | _ => (EmptyString, r1)
                        end ->
             0 <= digits_val (digits_val 0 ip) fp).
  { intros fp r2 E.
    assert (Hdot : forall r, (fp, r2) = span_digits r ->
                             0 <= digits_val (digits_val 0 ip) fp).
    { intros r Er. pose proof (digits_val_span_nonneg r _ Hip) as H.
      rewrite <- Er in H. exact H. }
    destruct r1 as [|c r]; [injection E as -> _; exact Hip|].
    destruct (Ascii.eqb_spec c "."); [subst c; now apply (Hdot r)|].
    assert ((fp, r2) = (EmptyString, String c r)) as E'.
    { rewrite E. each_char c; try reflexivity. now elim n. }
    injection E' as -> _. exact Hip. }
  destruct (match r1 with String "." r => span_digits r | _ => (EmptyString, r1) end)
    as [fp r2] eqn:E.
  specialize (Hm fp r2 eq_refl).
  destruct (slen ip + slen fp =? 0); [discriminate|].
  destruct r2 as [|c r3]; [intros H; injection H as <- _; exact Hm|].
  destruct (Ascii.eqb (lower c) "e"); [|discriminate].
  destruct (take_sign r3) as [eneg r4].
  destruct (span_digits r4) as [[|c' d] [|]]; try discriminate.
  intros H; injection H as <- _; exact Hm.
Qed.

Lemma round_half_even_nonneg (num den : Z) :
  0 <= num -> 0 < den -> 0 <= round_half_even num den.
Proof.
  intros Hn Hd. unfold round_half_even.
  pose proof (Z.div_pos num den Hn Hd).
  destruct (2 * (num mod den) ?= den); [destruct (Z.even _)|..]; lia.
Qed.

Lemma binary64_nonneg (n d : Z) : 0 <= n -> 0 < d -> nonneg (binary64 false n d).
Proof.
  intros Hn Hd. unfold binary64.
  destruct (n =? 0); [simpl; lia|].
  set (e := Z.max _ _).
  destruct (0 <=? e) eqn:He; cbn [andb].
  - destruct (2 ^ 1024 <=? _); [reflexivity|].
    split; [reflexivity|]. apply round_half_even_nonneg; [exact Hn|].
    apply Z.leb_le in He. apply Z.mul_pos_pos; [exact Hd|].
    now apply Z.pow_pos_nonneg.
  - split; [reflexivity|]. apply round_half_even_nonneg; [|exact Hd].
    apply Z.mul_nonneg_nonneg; [exact Hn|]. apply Z.pow_nonneg. lia.
Qed.

Lemma of_scaled_nonneg (b m e : Z) :
  0 < b -> 0 <= m ->
  nonneg (if 0 <=? e then binary64 false (m * b ^ e) 1
          else binary64 false m (b ^ (- e))).
Proof.
  intros Hb Hm. destruct (0 <=? e) eqn:He.
  - apply binary64_nonneg; [|lia].
    apply Z.mul_nonneg_nonneg; [exact Hm|]. apply Z.pow_nonneg. lia.
  - apply binary64_nonneg; [exact Hm|].
    apply Z.leb_gt in He. apply Z.pow_pos_nonneg; lia.
Qed.

Lemma fmul_nonneg (a b : float) : nonneg a -> nonneg b -> nonneg (fmul a b).
Proof.
  destruct a as [s m1 e1|s|], b as [t m2 e2|t|]; simpl; try tauto.
  - intros [-> H1] [-> H2]. apply (of_scaled_nonneg 2); [lia|].
    now apply Z.mul_nonneg_nonneg.
  - intros [-> _] ->. now destruct (m1 =? 0).
  - intros -> [-> _]. now destruct (m2 =? 0).
  - now intros -> ->.
Qed.

Lemma int_of_float_nonneg (f : float) (c : Z) :
  nonneg f -> int_of_float f = Ok c -> 0 <= c.
Proof.
  destruct f as [s m e|s|]; simpl; try discriminate.
  intros [-> Hm] H. injection H as <-.
  destruct (0 <=? e) eqn:He.
  - apply Z.mul_nonneg_nonneg; [exact Hm|]. apply Z.pow_nonneg. lia.
  - apply Z.div_pos; [exact Hm|]. apply Z.leb_gt in He.
    apply Z.pow_pos_nonneg; lia.
Qed.

(** [float] raises nothing but ValueError. *)
Lemma float_of_string_raises (s : string) (e : exn) :
  float_of_string s = Raise e -> e = ValueError.
Proof.
  unfold float_of_string.
  destruct (drop_underscores None (strip s)) as [t|]; [|congruence].
  destruct (take_sign t) as [neg body].
  destruct (_ || _); [discriminate|].
  destruct (String.eqb _ "nan"); [discriminate|].
  destruct (parse_decimal body) as [[m x]|]; [discriminate | congruence].
Qed.

(** The text that starts with a digit is read as a float that is not
    below zero. *)
Lemma float_of_digits_nonneg (c : ascii) (r : string) (f : float) :
  isdigit c = true -> float_of_string (String c r) = Ok f -> nonneg f.
Proof.
  intros Hc. unfold float_of_string.
  destruct (strip_digit_head c r Hc) as [r' ->].
  cbn [drop_underscores]. rewrite (digit_not_underscore _ Hc). cbn [andb].
  destruct (drop_underscores (Some c) r') as [t|]; cbn [option_map]; [|discriminate].
  rewrite (digit_no_sign _ _ Hc).
  destruct (_ || _); [intros H; injection H as <-; reflexivity|].
  destruct (String.eqb _ "nan"); [intros H; injection H as <-; exact I|].
  destruct (parse_decimal (String c t)) as [[m x]|] eqn:Hp; [|discriminate].
  intros H; injection H as <-. unfold of_decimal.
  apply (of_scaled_nonneg 10); [lia|]. exact (parse_decimal_nonneg _ _ _ Hp).
Qed.

Lemma search_starts_with_digit (s g : string) :
  Re.search s = Some g -> exists c r, g = String c r /\ isdigit c = true.
Proof.
  induction s as [|c r IH]; cbn [Re.search]; [discriminate|].
  destruct (isdigit c) eqn:Hc; [|exact IH].
  intros H; injection H as <-. unfold Re.match_here. cbn [span_digits].
  rewrite Hc. destruct (span_digits r) as [d t].
  destruct t as [|c' t']; [eauto|].
  destruct (Ascii.eqb c' "010"); simpl; eauto.
Qed.

Lemma search_finds_digit (s : string) :
  has_digit s = true -> exists g, Re.search s = Some g.
Proof.
  unfold has_digit. induction s as [|c r IH]; [discriminate|].
  cbn [list_ascii_of_string existsb Re.search].
  destruct (isdigit c); [eauto | exact IH].
Qed.

Lemma hundred_nonneg : nonneg (float_of_int 100).
Proof. apply binary64_nonneg; lia. Qed.

Lemma price_cents_nonneg (v : value) (c : Z) :
  price_cents v = Ok c -> 0 <= c.
Proof.
  destruct v as [s| |]; simpl; try discriminate.
  destruct (Re.search s) as [g|] eqn:Hs; [|discriminate].
  destruct (search_starts_with_digit _ _ Hs) as (ch & r & -> & Hc).
  destruct (float_of_string (String ch r)) as [f|e] eqn:Hf; [|discriminate].
  cbn [bind]. apply int_of_float_nonneg.
  apply fmul_nonneg; [exact (float_of_digits_nonneg _ _ _ Hc Hf) | exact hundred_nonneg].
Qed.

(** ** C3: cents of a well-formed amount *)

(** C3 fails on the code. The amount 0.29 is well formed and its cents,
    computed exactly, are 29; the import, which multiplies the nearest
    binary64 by 100 and cuts the fraction off, stores 28. "$12.50" does
    give 1250. *)
Theorem price_cents_truncates :
  price_cents (VStr "$0.29") = Ok 28
  /\ cents_of_amount "0.29" = Some 29
  /\ price_cents (VStr "$12.50") = Ok 1250
  /\ db (run go_startup (first_run [returns_line] [""]))
     = [Db.mkProduct (Some 1) "Returns" (-5) 28 (Date.mkdate 2024 3 4)].
Proof. vm_compute. repeat split; reflexivity. Qed.

(** ** C10: what the price coercion can raise *)


(** C10, as the claim states it, fails: a cell of 310 digits is read as
    the float infinity, and int() of it raises OverflowError, which is
    neither a cents value nor the parse failure. *)
Lemma huge_price_overflows :
  has_digit huge_price = true
  /\ price_cents (VStr huge_price) = Raise OverflowError
  /\ ~ ((exists c, price_cents (VStr huge_price) = Ok c)
        \/ price_cents (VStr huge_price) = Raise ValueError).
Proof.
  assert (H : price_cents (VStr huge_price) = Raise OverflowError)
    by (vm_compute; reflexivity).
  split; [vm_compute; reflexivity | split; [exact H|]].
  rewrite H. intros [[c Hc]|Hv]; discriminate.
Qed.

(** C10, amended. For a price cell with at least one digit the coercion
    returns cents, which are not negative, or raises ValueError (the text
    matched is no float literal) or OverflowError (the amount is beyond
    the floats); the search always finds a match, so AttributeError is not
    raised. *)
Theorem price_with_digit (s : string) :
  has_digit s = true ->
  (exists c, price_cents (VStr s) = Ok c /\ 0 <= c)
  \/ price_cents (VStr s) = Raise ValueError
  \/ price_cents (VStr s) = Raise OverflowError.
Proof.
  intros H. destruct (price_cents (VStr s)) as [c|e] eqn:Hp.
  - left. exists c. split; [reflexivity | exact (price_cents_nonneg _ _ Hp)].
  - right. revert Hp. cbn [price_cents].
    destruct (search_finds_digit _ H) as [g ->].
    destruct (float_of_string g) as [f|e'] eqn:Hf; cbn [bind].
    + destruct (fmul f (float_of_int 100)) as [? ? ?|?|]; cbn [int_of_float];
        intros Hp; first [discriminate Hp | injection Hp as <-; auto].
    + intros Hp; injection Hp as <-. left.
      f_equal. exact (float_of_string_raises _ _ Hf).
Qed.

Lemma price_with_digit_witness :
  has_digit "$1,234.56" = true
  /\ ((exists c, price_cents (VStr "$1,234.56") = Ok c /\ 0 <= c)
      \/ price_cents (VStr "$1,234.56") = Raise ValueError
      \/ price_cents (VStr "$1,234.56") = Raise OverflowError).
Proof.
  split; [reflexivity|]. apply (price_with_digit "$1,234.56"). reflexivity.
Defined.

(** The thousands separator of the claim's example: the text matched is
    "1,23", which is not a number. *)
Example thousands_separator :
  Re.search "$1,234.56" = Some "1,23"
  /\ price_cents (VStr "$1,234.56") = Raise ValueError.
Proof. split; reflexivity. Qed.

(** ** C7: signs of the stored numbers *)

(** C7, as the claim states it, fails: an import row with the quantity
    "-5" is stored with the quantity -5; and the interactive add stores
    the quantity -7 and the price -150 cents typed as "-1.5". *)
Lemma negative_quantity_stored :
  (exists r, In r (db (run go_startup (first_run [returns_line] [""])))
             /\ Db.product_quantity r < 0)
  /\ (exists r, In r (db (run _add_product
                            (first_run [] ["Refund"; "-7"; "-1.5"; "y"; ""])))
                /\ Db.product_quantity r < 0 /\ Db.product_price r < 0).
Proof.
  split.
  - exists (Db.mkProduct (Some 1) "Returns" (-5) 28 (Date.mkdate 2024 3 4)).
    vm_compute. split; [left|]; reflexivity.
  - exists (Db.mkProduct (Some 1) "Refund" (-7) (-150) (Date.mkdate 2026 11 3)).
    vm_compute. split; [left|split]; reflexivity.
Qed.

Lemma convert_csv_item_price (p p' : item) :
  convert_csv_item p = (Ok tt, p') ->
  exists c, product_price p' = VInt c /\ 0 <= c.
Proof.
  unfold convert_csv_item, bindS, gets, lift, modify.
  destruct (price_cents (product_price p)) as [c|e] eqn:Hc; [|discriminate].
  cbn [product_quantity set_price].
  destruct (int_of_value (product_quantity p)) as [q|e]; [|discriminate].
  cbn [date_updated set_quantity set_price].
  destruct (strptime_value (date_updated p)) as [d|e]; [|discriminate].
  intros H; injection H as <-. exists c. split; [reflexivity|].
  exact (price_cents_nonneg _ _ Hc).
Qed.

Lemma for_each_ok (S : Type) (P : S -> Prop) (body : ST S unit) (xs ys : list S) :
  (forall x x', body x = (Ok tt, x') -> P x') ->
  for_each body xs = (Ok tt, ys) -> Forall P ys.
Proof.
  intros Hbody. revert ys. induction xs as [|x xs IH]; intros ys; cbn [for_each].
  - intros H; injection H as <-. constructor.
  - destruct (body x) as [[[]|e] x'] eqn:Hx; [|discriminate].
    destruct (for_each body xs) as [r ys'].
    intros H; injection H as -> <-. constructor; [now apply (Hbody x)|].
    now apply IH.
Qed.

Lemma reconciled_rows (t : Db.table) (new r : Db.Product) :
  In r (reconciled t new) ->
  In r t \/ Db.product_price r = Db.product_price new.
Proof.
  unfold reconciled. destruct (find _ t) as [existing|].
  - destruct (Date.ltb _ _); [|tauto].
    intros H. apply in_map_iff in H. destruct H as [r0 [<- Hin]].
    destruct (Db.has_name _ r0); [right; reflexivity | left; exact Hin].
  - intros H. apply in_app_or in H. destruct H as [H|[<-|[]]]; [tauto|].
    right. reflexivity.
Qed.

Lemma save_rows_prices (t0 : Db.table) (ps : list item) (count : Z) (w : world) :
  wf (db w) ->
  Forall (fun p => exists c, product_price p = VInt c /\ 0 <= c) ps ->
  (forall r, In r (db w) -> In r t0 \/ 0 <= Db.product_price r) ->
  forall r, In r (db (run (save_rows ps count) w)) ->
            In r t0 \/ 0 <= Db.product_price r.
Proof.
  revert count w. induction ps as [|p ps IH]; intros count w Hwf Hps Hold;
    [exact Hold|].
  inversion Hps as [|? ? [c [Hc Hc0]] Hps']; subst.
  destruct (new_product p) as [new|e] eqn:Hp.
  - destruct (new_product_item _ _ Hp) as [-> Hid].
    unfold run. rewrite (save_rows_cons _ _ _ _ Hwf Hid).
    apply IH; [now apply wf_reconciled | exact Hps'|].
    cbn [db set_db]. intros r Hr.
    destruct (reconciled_rows _ _ _ Hr) as [Hin| ->]; [now apply Hold|].
    right. cbn in Hc. injection Hc as <-. exact Hc0.
  - unfold run. cbn [save_rows]. unfold bindS at 1, lift at 1. rewrite Hp. exact Hold.
Qed.

(** C7, amended. Every row the startup import writes has a price of
    zero cents or more (the amount is taken without its sign): a row of
    the table afterwards was there before or has a price that is not
    negative. The quantity is not checked at all, nor is the price of an
    interactive add. *)
Theorem import_price_nonneg (w : world) (r : Db.Product) :
  wf (db w) ->
  In r (db (run go_startup w)) ->
  In r (db w) \/ 0 <= Db.product_price r.
Proof.
  intros Hwf. unfold run. rewrite go_startup_eq.
  destruct (for_each convert_csv_item _) as [[[]|e] ps] eqn:Hfe; [|tauto].
  change (In r (db (run _save_csv (set_products ps w))) ->
          In r (db w) \/ 0 <= Db.product_price r).
  rewrite save_csv_db. cbn [products set_products].
  apply (save_rows_prices (db w)); [exact Hwf | | tauto].
  exact (for_each_ok _ _ _ _ _ convert_csv_item_price Hfe).
Qed.

Lemma import_price_nonneg_witness :
  wf (db (first_run [returns_line] [""]))
  /\ In (Db.mkProduct (Some 1) "Returns" (-5) 28 (Date.mkdate 2024 3 4))
       (db (run go_startup (first_run [returns_line] [""])))
  /\ (In (Db.mkProduct (Some 1) "Returns" (-5) 28 (Date.mkdate 2024 3 4))
        (db (first_run [returns_line] [""]))
      \/ 0 <= Db.product_price
                (Db.mkProduct (Some 1) "Returns" (-5) 28 (Date.mkdate 2024 3 4))).
Proof.
  assert (Hwf : wf (db (first_run [returns_line] [""]))) by table_ok.
  assert (Hin : In (Db.mkProduct (Some 1) "Returns" (-5) 28 (Date.mkdate 2024 3 4))
                  (db (run go_startup (first_run [returns_line] [""]))))
    by (vm_compute; left; reflexivity).
  split; [exact Hwf | split; [exact Hin|]].
  exact (import_price_nonneg _ _ Hwf Hin).
Defined.

(** ** Quotients that stay finite *)

Lemma floor_log2_ratio_le (n d : Z) :
  floor_log2_ratio n d <= Z.log2 n - Z.log2 d.
Proof.
  unfold floor_log2_ratio.
  match goal with |- context [if ?c then _ else _ - 1] => destruct c end; lia.
Qed.

Lemma round_half_even_le (num den : Z) :
  round_half_even num den <= num / den + 1.
Proof.
  unfold round_half_even.
  destruct (2 * (num mod den) ?= den); [destruct (Z.even _)|..]; lia.
Qed.

(** Below [d * 2^1000] the quotient has a finite binary64. *)
Lemma binary64_finite (s : bool) (n d : Z) :
  0 <= n -> 0 < d -> n < d * 2 ^ 1000 ->
  exists m e, binary64 s n d = Fin s m e.
Proof.
  intros Hn Hd Hlt. unfold binary64.
  destruct (n =? 0) eqn:E0; [eauto|]. apply Z.eqb_neq in E0.
  set (e := Z.max (floor_log2_ratio n d - 52) (-1074)).
  destruct (0 <=? e) eqn:He; cbn [andb]; [|eauto].
  apply Z.leb_le in He.
  assert (Hl : Z.log2 n <= Z.log2 d + 1000).
  { rewrite Z.add_comm, <- Z.log2_mul_pow2 by lia. apply Z.log2_le_mono. lia. }
  pose proof (floor_log2_ratio_le n d) as Hf.
  assert (Hemax : e <= 948) by (subst e; lia).
  set (P := 2 ^ e).
  assert (HP : 0 < P) by (apply Z.pow_pos_nonneg; lia).
  assert (HP' : P <= 2 ^ 948) by (apply Z.pow_le_mono_r; lia).
  set (m := round_half_even n (d * P)).
  assert (Hm : m <= n / (d * P) + 1) by apply round_half_even_le.
  assert (Hq : d * P * (n / (d * P)) <= n) by (apply Z.mul_div_le; nia).
  assert (Hq0 : 0 <= n / (d * P)) by (apply Z.div_pos; nia).
  assert (Hsmall : m * P < 2 ^ 1024).
  { assert (H1 : 2 ^ 1000 + 2 ^ 948 < 2 ^ 1024) by (vm_compute; reflexivity).
    set (a := 2 ^ 1000) in *. set (b := 2 ^ 948) in *. set (c := 2 ^ 1024) in *.
    set (q := n / (d * P)) in *.
    assert (H2 : q * P < a).
    { apply Z.nle_gt. intros H3.
      assert (d * a <= d * (q * P)) by (apply Z.mul_le_mono_nonneg_l; lia).
      nia. }
    nia. }
  apply Z.leb_gt in Hsmall. fold P. fold m. rewrite Hsmall. eauto.
Qed.

Lemma truediv_finite (c : Z) :
  Z.abs c < 10 ^ 300 -> exists s m e, truediv c 100 = Ok (Fin s m e).
Proof.
  intros H. unfold truediv.
  destruct (binary64_finite (xorb (c <? 0) (100 <? 0)) (Z.abs c) (Z.abs 100))
    as (m & e & ->); [lia | reflexivity | | eauto].
  change (Z.abs 100) with 100.
  assert (10 ^ 300 < 100 * 2 ^ 1000) by (vm_compute; reflexivity). lia.
Qed.

(** ** The backup *)

Lemma convert_db_item_of (r : Db.Product) (f : float) :
  truediv (Db.product_price r) 100 = Ok f ->
  convert_db_item (item_of r) = (Ok tt, converted ("$" ++ repr_float f)%string r).
Proof.
  intros H. unfold convert_db_item, bindS, gets, lift, modify. cbn.
  rewrite H. reflexivity.
Qed.

Lemma for_each_convert_db (t : Db.table) :
  Forall (fun r => exists f, truediv (Db.product_price r) 100 = Ok f) t ->
  exists ys,
    for_each convert_db_item (map item_of t) = (Ok tt, ys)
    /\ Forall2 (fun r y => exists f, truediv (Db.product_price r) 100 = Ok f
                                     /\ y = converted ("$" ++ repr_float f)%string r) t ys.
Proof.
  induction 1 as [|r t [f Hf] _ (ys & Hys & Hall)]; cbn [map for_each].
  - exists []. split; [reflexivity | constructor].
  - rewrite (convert_db_item_of _ _ Hf), Hys.
    eexists. split; [reflexivity|]. constructor; [eauto | exact Hall].
Qed.

(** [_backup] in one piece: what is in [self.products] and then the
    table is converted; the file is written when that went through. *)
Lemma backup_eq (w : world) :
  _backup w
  = match for_each convert_db_item (products w ++ map item_of (db w)) with
    | (Ok _, ys) =>
        _wait (set_backup_csv (fieldnames :: map cells ys) (set_products ys w))
    | (Raise e, ys) => (Raise e, set_products ys w)
    end.
Proof.
  destruct w as [ps t csv bk ins day].
  unfold _backup, _load_db, _convert_db, _save_db, bindS, gets, modify.
  cbn [products set_products db].
  change (map (fun r => mkitem _ _ _ _) t) with (map item_of t).
  destruct (for_each convert_db_item (ps ++ map item_of t)) as [[[]|e] ys];
    reflexivity.
Qed.

(** The first backup of a run, when [self.products] is still empty:
    the table is read, converted and written, and then the program
    waits for the Enter key. *)
Lemma first_backup (w : world) :
  products w = [] ->
  Forall (fun r => exists f, truediv (Db.product_price r) 100 = Ok f) (db w) ->
  exists ys,
    Forall2 (fun r y => exists f, truediv (Db.product_price r) 100 = Ok f
                                  /\ y = converted ("$" ++ repr_float f)%string r) (db w) ys
    /\ _backup w
       = _wait (set_backup_csv (fieldnames :: map cells ys) (set_products ys w)).
Proof.
  intros Hps Hall. destruct (for_each_convert_db _ Hall) as (ys & Hys & H2).
  exists ys. split; [exact H2|].
  rewrite backup_eq, Hps. cbn [app]. now rewrite Hys.
Qed.

Lemma wait_keeps_files (w : world) :
  backup_csv (run _wait w) = backup_csv w /\ products (run _wait w) = products w.
Proof.
  unfold run, _wait, bindS, input, ret. destruct (stdin w); split; reflexivity.
Qed.

(** ** C8: the rows of backup.csv *)

Lemma shown_short_checked :
  forallb shown_short (map Z.of_nat (seq 0 (Z.to_nat 10000))) = true.
Proof. vm_compute. reflexivity. Qed.

Lemma price_text_short (c : Z) (f : float) :
  0 <= c < 10000 -> truediv c 100 = Ok f ->
  ("$" ++ repr_float f)%string = ("$" ++ short_amount c)%string.
Proof.
  intros Hc Hf.
  assert (H : shown_short c = true).
  { apply (proj1 (forallb_forall _ _) shown_short_checked).
    apply in_map_iff. exists (Z.to_nat c). split; [lia|]. apply in_seq. lia. }
  unfold shown_short, price_text in H. rewrite Hf in H. cbn [bind] in H.
  now apply String.eqb_eq in H.
Qed.

(** C8, as the claim states it, fails: a product of 1250 cents is
    written with the price "$12.5", which has one decimal digit. *)
Lemma one_decimal_exported :
  backup_csv (run _backup (world_of [stored 1 gadget]))
  = [["product_name"; "product_price"; "product_quantity"; "date_updated"];
     ["Gadget"; "$12.5"; "7"; "01/01/2024"]]
  /\ two_decimals "$12.5" = false
  /\ two_decimals "$12.50" = true.
Proof. vm_compute. repeat split; reflexivity. Qed.

(** C8, amended. The first backup of a run writes the header and, for
    each row of the table in order, one row of the same four columns:
    the name; the price as a dollar sign and the text of the float
    price_cents / 100; the quantity as decimal text; the date as month,
    day and year, month and day on two digits. For prices from 0 to 99.99
    dollars the amount shown has its cents without a zero at the end:
    one decimal digit when the cents are a multiple of ten, two
    otherwise. *)
Theorem backup_rows (w : world) :
  products w = [] ->
  (forall r, In r (db w) -> Z.abs (Db.product_price r) < 10 ^ 300) ->
  exists rows,
    backup_csv (run _backup w) = fieldnames :: rows
    /\ Forall2
         (fun r row =>
            exists f, truediv (Db.product_price r) 100 = Ok f
                      /\ row = exported ("$" ++ repr_float f)%string r
                      /\ (0 <= Db.product_price r < 10000 ->
                          row = exported ("$" ++ short_amount (Db.product_price r))%string r))
         (db w) rows.
Proof.
  intros Hps Hsmall.
  assert (Hall : Forall (fun r => exists f, truediv (Db.product_price r) 100 = Ok f)
                   (db w)).
  { apply Forall_forall. intros r Hr.
    destruct (truediv_finite _ (Hsmall r Hr)) as (s & m & e & H). eauto. }
  destruct (first_backup w Hps Hall) as (ys & H2 & Hb).
  exists (map cells ys). split.
  - unfold run. rewrite Hb.
    exact (proj1 (wait_keeps_files (set_backup_csv _ (set_products ys w)))).
  - clear Hb Hall Hsmall Hps. induction H2 as [|r y t ys' (f & Hf & ->) _ IH];
      cbn [map]; constructor.
    + exists f. split; [exact Hf | split; [reflexivity|]].
      intros Hc. change (cells (converted ("$" ++ repr_float f)%string r))
        with (exported ("$" ++ repr_float f)%string r).
      now rewrite (price_text_short _ _ Hc Hf).
    + exact IH.
Qed.

Lemma backup_rows_witness :
  products (world_of [stored 1 gadget]) = []
  /\ (forall r, In r (db (world_of [stored 1 gadget])) ->
        Z.abs (Db.product_price r) < 10 ^ 300)
  /\ exists rows,
       backup_csv (run _backup (world_of [stored 1 gadget])) = fieldnames :: rows
       /\ Forall2
            (fun r row =>
               exists f, truediv (Db.product_price r) 100 = Ok f
                         /\ row = exported ("$" ++ repr_float f)%string r
                         /\ (0 <= Db.product_price r < 10000 ->
                             row = exported ("$" ++ short_amount (Db.product_price r))%string r))
            (db (world_of [stored 1 gadget])) rows.
Proof.
  assert (Hsmall : forall r, In r (db (world_of [stored 1 gadget])) ->
                   Z.abs (Db.product_price r) < 10 ^ 300).
  { intros r [<-|[]]. vm_compute. reflexivity. }
  split; [reflexivity | split; [exact Hsmall|]].
  exact (backup_rows (world_of [stored 1 gadget]) eq_refl Hsmall).
Defined.

(** ** C9: a second backup *)

Lemma for_each_ok_cons (S : Type) (body : ST S unit) (x : S) (xs ys : list S) :
  for_each body (x :: xs) = (Ok tt, ys) ->
  exists x' ys', ys = x' :: ys' /\ body x = (Ok tt, x').
Proof.
  cbn [for_each]. destruct (body x) as [[[]|e] x']; [|discriminate].
  destruct (for_each body xs) as [r ys']. intros H. injection H as _ <-. eauto.
Qed.

Lemma convert_db_item_price (p p' : item) :
  convert_db_item p = (Ok tt, p') -> exists s, product_price p' = VStr s.
Proof.
  unfold convert_db_item, bindS, gets, lift, modify.
  destruct (price_text (product_price p)) as [s|e]; [|discriminate].
  cbn [date_updated set_quantity set_price].
  destruct (strftime_value (date_updated p)) as [d|e]; [|discriminate].
  intros H. injection H as <-. cbn. eauto.
Qed.

Lemma convert_db_item_stale (p : item) (s : string) :
  product_price p = VStr s -> convert_db_item p = (Raise TypeError, p).
Proof.
  intros H. unfold convert_db_item, bindS, gets, lift. now rewrite H.
Qed.

(** C9 fails on the code. When the first backup of a run went through
    on a table that is not empty, the second one raises TypeError in
    [_convert_db], on the first dictionary the first backup left in
    [self.products], and backup.csv is not written again. *)
Theorem second_backup_raises (w : world) :
  products w = [] ->
  db w <> [] ->
  fst (_backup w) = Ok tt ->
  fst (_backup (run _backup w)) = Raise TypeError
  /\ backup_csv (run _backup (run _backup w)) = backup_csv (run _backup w)
  /\ products (run _backup w) <> [].
Proof.
  intros Hps Hne Hok.
  assert (Hstale : exists p s rest, products (run _backup w) = p :: rest
                                    /\ product_price p = VStr s).
  { revert Hok. unfold run. rewrite backup_eq, Hps. cbn [app].
    destruct (db w) as [|r t]; [now elim Hne|]. cbn [map].
    destruct (for_each convert_db_item _) as [[[]|e] ys] eqn:Hfe; [|discriminate].
    destruct (for_each_ok_cons _ _ _ _ _ Hfe) as (x' & ys' & -> & Hx).
    destruct (convert_db_item_price _ _ Hx) as [s Hs].
    intros _. exists x', s, ys'. split; [|exact Hs].
    exact (proj2 (wait_keeps_files (set_backup_csv _ (set_products (x' :: ys') w)))). }
  destruct Hstale as (p & s & rest & Hp & Hs).
  assert (Hsecond : _backup (run _backup w)
                    = (Raise TypeError,
                       set_products
                         ((p :: rest) ++ map item_of (db (run _backup w)))
                         (run _backup w))).
  { rewrite backup_eq, Hp. cbn [app for_each].
    now rewrite (convert_db_item_stale _ _ Hs). }
  repeat split.
  - now rewrite Hsecond.
  - unfold run at 1. now rewrite Hsecond.
  - rewrite Hp. discriminate.
Qed.

Lemma second_backup_raises_witness :
  products (world_of [stored 1 gadget]) = []
  /\ db (world_of [stored 1 gadget]) <> []
  /\ fst (_backup (world_of [stored 1 gadget])) = Ok tt
  /\ fst (_backup (run _backup (world_of [stored 1 gadget]))) = Raise TypeError.
Proof.
  assert (Hne : db (world_of [stored 1 gadget]) <> []) by discriminate.
  assert (Hok : fst (_backup (world_of [stored 1 gadget])) = Ok tt)
    by (vm_compute; reflexivity).
  split; [reflexivity | split; [exact Hne | split; [exact Hok|]]].
  exact (proj1 (second_backup_raises (world_of [stored 1 gadget]) eq_refl Hne Hok)).
Defined.

(** * Further properties *)

Import Shell Extra.

(** ** More on the reconciled table *)

Lemma ltb_not_lt_trans (a b c : Date.date) :
  Date.ltb b a = false -> Date.ltb c b = false -> Date.ltb c a = false.
Proof.
  intros H1 H2. destruct (Date.ltb c a) eqn:E; [|reflexivity].
  apply ltb_spec in E.
  assert (N1 : ~ Date.ltb b a = true) by congruence.
  assert (N2 : ~ Date.ltb c b = true) by congruence.
  rewrite ltb_spec in N1, N2. lia.
Qed.

Lemma ltb_lt_not_trans (a b c : Date.date) :
  Date.ltb a b = false -> Date.ltb a c = true -> Date.ltb c b = false.
Proof.
  intros H1 H2. destruct (Date.ltb c b) eqn:E; [|reflexivity].
  pose proof (ltb_trans _ _ _ H2 E). congruence.
Qed.

Lemma kept_refl (r : Db.Product) : kept r r.
Proof. repeat split. apply ltb_irrefl. Qed.

Lemma kept_trans (a b c : Db.Product) : kept a b -> kept b c -> kept a c.
Proof.
  intros (Hi & Hn & Hd) (Hi' & Hn' & Hd'). repeat split; try congruence.
  exact (ltb_not_lt_trans _ _ _ Hd Hd').
Qed.

Lemma Forall2_kept_refl (t : Db.table) : Forall2 kept t t.
Proof. induction t; constructor; auto using kept_refl. Qed.

Lemma grows_refl (t : Db.table) : grows t t.
Proof. exists t, []. split; [now rewrite app_nil_r | apply Forall2_kept_refl]. Qed.

Lemma Forall2_kept_trans (a b c : Db.table) :
  Forall2 kept a b -> Forall2 kept b c -> Forall2 kept a c.
Proof.
  intros H. revert c. induction H as [|x y a b Hxy _ IH]; intros c Hc;
    inversion Hc; subst; constructor; eauto using kept_trans.
Qed.

Lemma grows_trans (a b c : Db.table) : grows a b -> grows b c -> grows a c.
Proof.
  intros (old & added & -> & H) (old' & added' & -> & H').
  apply Forall2_app_inv_l in H'. destruct H' as (o1 & o2 & H1 & H2 & ->).
  exists o1, (o2 ++ added'). split; [now rewrite app_assoc|].
  exact (Forall2_kept_trans _ _ _ H H1).
Qed.

(** With one row for each name, a reconcile keeps every row. *)
Lemma reconciled_grows (t : Db.table) (new : Db.Product) :
  wf t -> grows t (reconciled t new).
Proof.
  intros Hwf. unfold reconciled.
  destruct (find _ t) as [existing|] eqn:Hf.
  - destruct (Date.ltb _ _) eqn:Hlt; [|apply grows_refl].
    exists (map (fun r => if Db.has_name (Db.product_name new) r
                          then overwrite new r else r) t), [].
    split; [now rewrite app_nil_r|].
    destruct (find_some _ _ Hf) as [Hin Hname]. apply has_name_iff in Hname.
    assert (Hone : forall r, In r t -> Db.has_name (Db.product_name new) r = true ->
                             r = existing).
    { intros r Hr Hn. apply has_name_iff in Hn. destruct Hwf as [Hnd _].
      apply (NoDup_map_inj _ _ Db.product_name t r existing Hnd Hr Hin). congruence. }
    clear Hf Hin. induction t as [|x t IH]; cbn [map]; constructor.
    + destruct (Db.has_name _ x) eqn:E; [|apply kept_refl].
      rewrite (Hone x (or_introl eq_refl) E). repeat split.
      cbn. now apply ltb_asym.
    + apply IH.
      * destruct Hwf as (Hn & Hi & Hs). cbn in Hn, Hi.
        inversion Hn; inversion Hi; inversion Hs; subst. repeat split; assumption.
      * intros r Hr. apply Hone. now right.
  - exists t, [stored (Db.next_id t) new]. split; [reflexivity | apply Forall2_kept_refl].
Qed.

Lemma find_app_found (A : Type) (f : A -> bool) (l l' : list A) (a : A) :
  find f l = Some a -> find f (l ++ l') = Some a.
Proof.
  induction l as [|x l IH]; simpl; [discriminate|].
  destruct (f x); [auto | exact IH].
Qed.

Lemma find_other_name (n n' : string) (new : Db.Product) (t : Db.table) :
  n <> n' ->
  find (Db.has_name n)
    (map (fun r => if Db.has_name n' r then overwrite new r else r) t)
  = find (Db.has_name n) t.
Proof.
  intros Hne. induction t as [|x t IH]; cbn [map find]; [reflexivity|].
  destruct (Db.has_name n' x) eqn:E'.
  - assert (Db.has_name n (overwrite new x) = Db.has_name n x) as -> by reflexivity.
    destruct (Db.has_name n x) eqn:E; [|exact IH].
    apply has_name_iff in E, E'. congruence.
  - destruct (Db.has_name n x); [reflexivity | exact IH].
Qed.

(** Right after its reconcile a candidate is covered. *)
Lemma reconciled_covers (t : Db.table) (c : Db.Product) :
  covered (reconciled t c) c.
Proof.
  unfold covered, Db.get_by_name, reconciled.
  destruct (find _ t) as [existing|] eqn:Hf.
  - destruct (Date.ltb _ _) eqn:Hlt.
    + rewrite (find_overwritten _ _ _ _ Hf). eexists. split; [reflexivity|].
      cbn. apply ltb_irrefl.
    + rewrite Hf. eauto.
  - apply find_none_existsb in Hf.
    rewrite (find_snoc _ _ _ (stored (Db.next_id t) c) Hf) by apply has_name_stored.
    eexists. split; [reflexivity|]. cbn. apply ltb_irrefl.
Qed.

(** A candidate that is covered stays covered whatever is reconciled
    later. *)
Lemma covered_reconciled (t : Db.table) (c c' : Db.Product) :
  covered t c -> covered (reconciled t c') c.
Proof.
  unfold covered, Db.get_by_name. intros (r & Hr & Hd).
  destruct (find (Db.has_name (Db.product_name c)) t) as [r0|] eqn:Hf;
    [|discriminate]. injection Hr as ->.
  unfold reconciled.
  destruct (find (Db.has_name (Db.product_name c')) t) as [existing|] eqn:Hf'.
  - destruct (Date.ltb (Db.date_updated existing) _) eqn:Hlt.
    + destruct (String.eqb_spec (Db.product_name c) (Db.product_name c')) as [E|E].
      * rewrite E in *. rewrite (find_overwritten _ _ _ _ Hf').
        eexists. split; [reflexivity|]. cbn.
        assert (existing = r) by congruence. subst existing.
        exact (ltb_lt_not_trans _ _ _ Hd Hlt).
      * rewrite (find_other_name _ _ _ _ E), Hf. eauto.
    + rewrite Hf. eauto.
  - rewrite (find_app_found _ _ _ _ _ Hf). eauto.
Qed.

(** Reconciling a covered candidate changes nothing. *)
Lemma reconciled_covered (t : Db.table) (c : Db.Product) :
  covered t c -> reconciled t c = t.
Proof.
  unfold covered, Db.get_by_name, reconciled. intros (r & Hr & Hd).
  destruct (find _ t) as [r0|]; [|discriminate]. injection Hr as ->.
  now rewrite Hd.
Qed.

Lemma fold_reconciled_covered (cs : list Db.Product) (t : Db.table) (c : Db.Product) :
  covered t c -> covered (fold_left reconciled cs t) c.
Proof.
  revert t. induction cs as [|c' cs IH]; intros t H; [exact H|].
  cbn [fold_left]. apply IH. now apply covered_reconciled.
Qed.

Lemma fold_reconciled_covers (cs : list Db.Product) (t : Db.table) :
  Forall (covered (fold_left reconciled cs t)) cs.
Proof.
  revert t. induction cs as [|c cs IH]; intros t; [constructor|].
  cbn [fold_left]. constructor; [|apply IH].
  apply fold_reconciled_covered, reconciled_covers.
Qed.

Lemma fold_reconciled_fixed (cs : list Db.Product) (t : Db.table) :
  Forall (covered t) cs -> fold_left reconciled cs t = t.
Proof.
  induction 1 as [|c cs Hc _ IH]; [reflexivity|].
  cbn [fold_left]. now rewrite (reconciled_covered _ _ Hc).
Qed.

(** Reconciling a list of candidates a second time changes nothing. *)
Lemma fold_reconciled_twice (cs : list Db.Product) (t : Db.table) :
  fold_left reconciled cs (fold_left reconciled cs t) = fold_left reconciled cs t.
Proof. apply fold_reconciled_fixed, fold_reconciled_covers. Qed.

Lemma fold_reconciled_wf (cs : list Db.Product) (t : Db.table) :
  wf t -> wf (fold_left reconciled cs t).
Proof.
  revert t. induction cs as [|c cs IH]; intros t H; [exact H|].
  cbn [fold_left]. apply IH. now apply wf_reconciled.
Qed.

Lemma fold_reconciled_grows (cs : list Db.Product) (t : Db.table) :
  wf t -> grows t (fold_left reconciled cs t).
Proof.
  revert t. induction cs as [|c cs IH]; intros t H; [apply grows_refl|].
  cbn [fold_left]. eapply grows_trans; [now apply reconciled_grows|].
  apply IH. now apply wf_reconciled.
Qed.

(** ** The startup import as a sequence of reconciles *)

Lemma convert_line (l : line) (c : Db.Product) :
  candidate_of_line l = Ok c ->
  convert_csv_item (dict_of_line l) = (Ok tt, item_of c)
  /\ Db.product_id c = None.
Proof.
  unfold candidate_of_line, convert_csv_item, bindS, gets, lift, modify, dict_of_line.
  cbn [product_price product_quantity date_updated set_price set_quantity set_date
       product_name int_of_value strptime_value].
  destruct (price_cents (VStr (csv_price l))) as [cents|e]; [|discriminate].
  cbn [bind]. destruct (int_of_string (csv_quantity l)) as [q|e]; [|discriminate].
  cbn [bind]. destruct (Date.strptime (csv_date l)) as [d|e]; [|discriminate].
  cbn [bind]. intros H. injection H as <-. split; reflexivity.
Qed.

Lemma convert_line_raise (l : line) (e : exn) :
  candidate_of_line l = Raise e ->
  fst (convert_csv_item (dict_of_line l)) = Raise e.
Proof.
  unfold candidate_of_line, convert_csv_item, bindS, gets, lift, modify, dict_of_line.
  cbn [product_price product_quantity date_updated set_price set_quantity set_date
       product_name int_of_value strptime_value].
  destruct (price_cents (VStr (csv_price l))) as [cents|e1]; [|now intros [= <-]].
  cbn [bind]. destruct (int_of_string (csv_quantity l)) as [q|e1]; [|now intros [= <-]].
  cbn [bind]. destruct (Date.strptime (csv_date l)) as [d|e1]; [|now intros [= <-]].
  discriminate.
Qed.

Lemma convert_lines (ls : list line) (cs : list Db.Product) :
  candidates ls = Ok cs ->
  for_each convert_csv_item (map dict_of_line ls) = (Ok tt, map item_of cs)
  /\ Forall (fun c => Db.product_id c = None) cs.
Proof.
  revert cs. induction ls as [|l ls IH]; intros cs; cbn [candidates map for_each].
  - intros H; injection H as <-. split; [reflexivity | constructor].
  - destruct (candidate_of_line l) as [c|e] eqn:Hc; [|discriminate]. cbn [bind].
    destruct (candidates ls) as [cs'|e]; [|discriminate]. cbn [bind].
    intros H; injection H as <-.
    destruct (convert_line _ _ Hc) as [-> Hid].
    destruct (IH cs' eq_refl) as [-> Hall].
    split; [reflexivity | now constructor].
Qed.

Lemma convert_lines_raise (ls : list line) (e : exn) :
  candidates ls = Raise e ->
  fst (for_each convert_csv_item (map dict_of_line ls)) = Raise e.
Proof.
  induction ls as [|l ls IH]; cbn [candidates map for_each]; [discriminate|].
  destruct (candidate_of_line l) as [c|e1] eqn:Hc.
  - destruct (convert_line _ _ Hc) as [-> _]. cbn [bind].
    destruct (candidates ls) as [cs'|e1]; [discriminate|]. cbn [bind].
    intros H; injection H as <-. specialize (IH eq_refl).
    destruct (for_each _ _). exact IH.
  - cbn [bind]. intros H; injection H as <-.
    pose proof (convert_line_raise _ _ Hc) as H.
    destruct (convert_csv_item (dict_of_line l)) as [[[]|e2] p]; cbn [fst] in *;
      [discriminate | exact H].
Qed.

Lemma reconciled_length (t : Db.table) (new : Db.Product) :
  Z.of_nat (List.length (reconciled t new))
  = Z.of_nat (List.length t)
    + (if existsb (Db.has_name (Db.product_name new)) t then 0 else 1).
Proof.
  unfold reconciled. destruct (find _ t) as [existing|] eqn:Hf.
  - rewrite (find_some_existsb _ _ _ _ Hf).
    destruct (Date.ltb _ _); [rewrite length_map|]; lia.
  - apply find_none_existsb in Hf. rewrite Hf, length_app. cbn. lia.
Qed.

(** The loop of [_save_csv] on converted rows: the candidates are
    reconciled in their order, and the count goes up by the number of
    rows the table gets. *)
Lemma save_rows_fold (cs : list Db.Product) (count : Z) (w : world) :
  wf (db w) ->
  Forall (fun c => Db.product_id c = None) cs ->
  save_rows (map item_of cs) count w
  = (Ok (count + Z.of_nat (List.length (fold_left reconciled cs (db w)))
         - Z.of_nat (List.length (db w))),
     set_db (fold_left reconciled cs (db w)) w).
Proof.
  revert count w. induction cs as [|c cs IH]; intros count w Hwf Hall.
  - cbn. rewrite set_db_same. unfold ret. do 2 f_equal. lia.
  - inversion Hall as [|? ? Hid Hall']; subst. cbn [map fold_left].
    rewrite (save_rows_cons _ _ _ _ Hwf Hid).
    rewrite IH; [| now apply wf_reconciled | exact Hall'].
    cbn [db set_db]. f_equal. f_equal. rewrite (reconciled_length (db w) c).
    destruct (existsb _ (db w)); lia.
Qed.

(** The startup import in one piece. *)
Lemma go_startup_fold (w : world) (cs : list Db.Product) :
  wf (db w) ->
  candidates (inventory_csv w) = Ok cs ->
  go_startup w
  = (_wait ;;; ret (Z.of_nat (List.length (fold_left reconciled cs (db w)))
                    - Z.of_nat (List.length (db w))))
      (set_products [] (set_db (fold_left reconciled cs (db w)) w)).
Proof.
  intros Hwf Hcs. destruct (convert_lines _ _ Hcs) as [Hfe Hall].
  rewrite go_startup_eq, Hfe.
  unfold _save_csv, bindS at 1, gets at 1. cbn [products set_products].
  unfold bindS at 1.
  rewrite (save_rows_fold cs 0 (set_products (map item_of cs) w) Hwf Hall).
  cbn [db set_products]. unfold bindS at 1, modify at 1.
  destruct w; reflexivity.
Qed.

Lemma go_startup_db (w : world) :
  wf (db w) ->
  db (run go_startup w)
  = match candidates (inventory_csv w) with
    | Ok cs => fold_left reconciled cs (db w)
    | Raise _ => db w
    end.
Proof.
  intros Hwf. destruct (candidates (inventory_csv w)) as [cs|e] eqn:Hcs.
  - unfold run. rewrite (go_startup_fold _ _ Hwf Hcs).
    unfold bindS, _wait, bindS, input, ret. cbn.
    destruct (stdin w); reflexivity.
  - pose proof (convert_lines_raise _ _ Hcs) as H.
    unfold run. rewrite go_startup_eq.
    destruct (for_each _ _) as [[[]|e1] ps]; [discriminate | reflexivity].
Qed.



(** X2. The number the startup import reports ("... items added") is
    the number of rows the table has more than before. *)
Theorem startup_count_is_rows_added (w : world) (n : Z) :
  wf (db w) ->
  fst (go_startup w) = Ok n ->
  Z.of_nat (List.length (db (run go_startup w)))
  = Z.of_nat (List.length (db w)) + n.
Proof.
  intros Hwf Hok.
  destruct (candidates (inventory_csv w)) as [cs|e] eqn:Hcs.
  - revert Hok. unfold run. rewrite (go_startup_fold _ _ Hwf Hcs).
    unfold bindS, _wait, bindS, input, ret. cbn.
    destruct (stdin w); cbn; [discriminate|].
    intros H; injection H as <-. lia.
  - pose proof (convert_lines_raise _ _ Hcs) as H.
    rewrite go_startup_eq in Hok.
    destruct (for_each _ _) as [[[]|e1] ps]; discriminate.
Qed.

Lemma startup_count_is_rows_added_witness :
  wf (db shop)
  /\ fst (go_startup shop) = Ok 2
  /\ Z.of_nat (List.length (db (run go_startup shop)))
     = Z.of_nat (List.length (db shop)) + 2.
Proof.
  assert (Hwf : wf (db shop)) by table_ok.
  assert (Hok : fst (go_startup shop) = Ok 2) by (vm_compute; reflexivity).
  split; [exact Hwf | split; [exact Hok|]].
  exact (startup_count_is_rows_added shop 2 Hwf Hok).
Defined.

(** X3. Importing the same inventory.csv again changes nothing: when
    the program is started a second time with the file as it was and
    the table as the first start left it, the table stays as it is,
    whatever the file holds. *)
Theorem startup_again_changes_nothing (w w2 : world) :
  wf (db w) ->
  inventory_csv w2 = inventory_csv w ->
  db w2 = db (run go_startup w) ->
  db (run go_startup w2) = db w2.
Proof.
  intros Hwf Hcsv Hdb.
  assert (Hwf2 : wf (db w2)) by (rewrite Hdb; now apply go_startup_wf).
  rewrite (go_startup_db _ Hwf2), Hcsv.
  rewrite (go_startup_db _ Hwf) in Hdb.
  destruct (candidates (inventory_csv w)) as [cs|e]; [|reflexivity].
  rewrite Hdb. apply fold_reconciled_twice.
Qed.

Lemma startup_again_changes_nothing_witness :
  wf (db shop)
  /\ inventory_csv (run go_startup shop) = inventory_csv shop
  /\ db (run go_startup shop) = db (run go_startup shop)
  /\ db (run go_startup (run go_startup shop)) = db (run go_startup shop).
Proof.
  assert (Hwf : wf (db shop)) by table_ok.
  assert (Hcsv : inventory_csv (run go_startup shop) = inventory_csv shop)
    by reflexivity.
  split; [exact Hwf | split; [exact Hcsv | split; [reflexivity|]]].
  exact (startup_again_changes_nothing shop (run go_startup shop) Hwf Hcsv eq_refl).
Defined.

(** ** Every step reconciles candidates and does nothing else to the
    table *)

Lemma add_product_db (w : world) :
  wf (db w) ->
  db (run _add_product w) = db w
  \/ exists p, Db.product_id p = None
               /\ db (run _add_product w) = reconciled (db w) p.
Proof.
  intros Hwf. destruct (get_product_info_fresh w) as [Hdb Hfresh].
  remember (db (run _add_product w)) as t' eqn:Et. revert Et.
  unfold run in *. unfold _add_product, bindS at 1.
  destruct (_get_product_info w) as [[[p|]|e] w1]; cbn [fst snd] in *.
  - unfold _confirm, bindS.
    pose proof (reading_db _ ask_confirm w1) as Hc. unfold run in Hc.
    destruct (reading ask_confirm w1) as [[[]|e] w2]; cbn [snd] in *.
    + change (t' = db (run (_save_product p) w2) ->
              t' = db w \/ exists p0, Db.product_id p0 = None
                                      /\ t' = reconciled (db w) p0).
      rewrite save_product_db; [| now rewrite Hc, Hdb | now apply Hfresh].
      rewrite Hc, Hdb. intros ->. right. exists p. split; [now apply Hfresh | reflexivity].
    + unfold ret. cbn [snd]. rewrite Hc, Hdb. now left.
    + rewrite Hc, Hdb. now left.
  - unfold ret. cbn [snd]. rewrite Hdb. now left.
  - rewrite Hdb. now left.
Qed.

Lemma step_reconciles (w w' : world) :
  step w w' -> wf (db w) ->
  exists cs, db w' = fold_left reconciled cs (db w).
Proof.
  intros Hs Hwf. destruct Hs as [w|w|w|p new w Hid|w w' Hdb].
  - rewrite (go_startup_db _ Hwf).
    destruct (candidates _) as [cs|e]; [now exists cs | now exists []].
  - destruct (add_product_db _ Hwf) as [->|(p & _ & ->)];
      [now exists [] | now exists [p]].
  - rewrite backup_db. now exists [].
  - rewrite reconcile_db by assumption. now exists [new].
  - rewrite Hdb. now exists [].
Qed.

Lemma steps_reconcile (w w' : world) :
  steps w w' -> wf (db w) ->
  exists cs, db w' = fold_left reconciled cs (db w).
Proof.
  induction 1 as [w|w1 w2 w3 Hs _ IH]; intros Hwf; [now exists []|].
  destruct (step_reconciles _ _ Hs Hwf) as [cs1 H1].
  destruct IH as [cs2 H2]; [exact (step_wf _ _ Hs Hwf)|].
  exists (cs1 ++ cs2). now rewrite fold_left_app, <- H1.
Qed.

(** X4. Whatever the program does, in whatever order, no row of the
    table is deleted or moved: every row keeps its id and its name, its
    date never becomes earlier, and new rows come after the old ones. *)
Theorem rows_are_kept (w w' : world) :
  wf (db w) -> steps w w' -> grows (db w) (db w').
Proof.
  intros Hwf Hsteps. destruct (steps_reconcile _ _ Hsteps Hwf) as [cs ->].
  now apply fold_reconciled_grows.
Qed.

Lemma rows_are_kept_witness :
  wf (db shop)
  /\ steps shop (run _add_product (run go_startup shop))
  /\ grows (db shop) (db (run _add_product (run go_startup shop))).
Proof.
  assert (Hwf : wf (db shop)) by table_ok.
  assert (Hsteps : steps shop (run _add_product (run go_startup shop))).
  { eapply steps_cons; [apply step_startup|].
    eapply steps_cons; [apply step_add | apply steps_nil]. }
  split; [exact Hwf | split; [exact Hsteps|]].
  exact (rows_are_kept _ _ Hwf Hsteps).
Defined.



(** ** The price cell without a digit *)

Lemma search_none (s : string) : has_digit s = false -> Re.search s = None.
Proof.
  unfold has_digit. induction s as [|c r IH]; [reflexivity|].
  cbn [list_ascii_of_string existsb Re.search].
  destruct (isdigit c); [discriminate | exact IH].
Qed.

(** X6. The price coercion of the import raises AttributeError exactly
    for the cells that hold no digit. *)
Theorem no_digit_is_attribute_error (s : string) :
  price_cents (VStr s) = Raise AttributeError <-> has_digit s = false.
Proof.
  split.
  - intros H. destruct (has_digit s) eqn:Hd; [exfalso | reflexivity].
    destruct (search_finds_digit _ Hd) as [g Hg].
    cbn [price_cents] in H. rewrite Hg in H.
    destruct (float_of_string g) as [f|e] eqn:Hf; cbn [bind] in H.
    + destruct (fmul f (float_of_int 100)); discriminate.
    + injection H as ->. pose proof (float_of_string_raises _ _ Hf). discriminate.
  - intros H. cbn [price_cents]. now rewrite (search_none _ H).
Qed.

(** ** Typing a product in *)






(** ** Decimal text and back *)

Lemma digit_char_spec (x : Z) :
  0 <= x < 10 -> isdigit (digit_char x) = true /\ digit_val (digit_char x) = x.
Proof.
  intros H.
  assert (x = 0 \/ x = 1 \/ x = 2 \/ x = 3 \/ x = 4 \/ x = 5 \/ x = 6 \/ x = 7
          \/ x = 8 \/ x = 9) as Hx by lia.
  repeat (destruct Hx as [->|Hx]; [split; reflexivity|]). subst. split; reflexivity.
Qed.

(** The digits [digits_of] puts before [acc] are digits, and read back
    they are the number. *)
Lemma digits_of_spec (fuel : nat) (n : Z) :
  0 <= n < 2 ^ Z.of_nat fuel ->
  exists k, 0 <= k /\
    forall acc a,
      digits_val a (digits_of fuel n acc) = digits_val (a * 10 ^ k + n) acc
      /\ all_digits (digits_of fuel n acc) = all_digits acc.
Proof.
  revert n. induction fuel as [|f IH]; intros n Hn.
  - exists 0. split; [lia|]. intros acc a. cbn [digits_of].
    assert (n = 0) by (cbn in Hn; lia). subst. split; [f_equal; lia | reflexivity].
  - cbn [digits_of]. destruct (n <? 10) eqn:E.
    + apply Z.ltb_lt in E. exists 1. split; [lia|]. intros acc a.
      cbn [digits_val all_digits].
      rewrite Z.mod_small by lia.
      destruct (digit_char_spec n) as [-> ->]; [lia|].
      split; [f_equal; lia | reflexivity].
    + apply Z.ltb_ge in E.
      destruct (IH (n / 10)) as (k & Hk & H).
      { split; [apply Z.div_pos; lia|].
        apply Z.div_lt_upper_bound; [lia|].
        rewrite Nat2Z.inj_succ, Z.pow_succ_r in Hn by lia. lia. }
      exists (k + 1). split; [lia|]. intros acc a.
      destruct (H (String (digit_char (n mod 10)) acc) a) as [-> ->].
      cbn [digits_val all_digits].
      destruct (digit_char_spec (n mod 10)) as [-> ->];
        [apply Z.mod_pos_bound; lia|].
      split; [|reflexivity]. f_equal.
      rewrite Z.pow_add_r, Z.pow_1_r by lia.
      pose proof (Z.div_mod n 10). lia.
Qed.

Lemma digits_of_nonempty (fuel : nat) (n : Z) (c : ascii) (acc : string) :
  exists c' r, digits_of fuel n (String c acc) = String c' r.
Proof.
  revert n c acc. induction fuel as [|f IH]; intros n c acc; cbn [digits_of]; [eauto|].
  destruct (n <? 10); [eauto | apply IH].
Qed.

(** The decimal text of a number that is not negative: digits only, at
    least one, and read back they are the number. *)
Lemma nat_to_string_spec (n : Z) :
  0 <= n ->
  exists c r, nat_to_string n = String c r
              /\ all_digits (String c r) = true
              /\ digits_val 0 (String c r) = n.
Proof.
  intros Hn.
  destruct (digits_of_spec (S (Z.to_nat (Z.log2 n))) n) as (k & Hk & H).
  { split; [exact Hn|]. rewrite Nat2Z.inj_succ, Z2Nat.id by apply Z.log2_nonneg.
    destruct (Z.eq_dec n 0) as [->|]; [reflexivity|].
    apply Z.log2_spec. lia. }
  destruct (H EmptyString 0) as [Hv Hd].
  assert (Hne : exists c r, nat_to_string n = String c r).
  { unfold nat_to_string. cbn [digits_of].
    destruct (n <? 10); [eauto | apply digits_of_nonempty]. }
  destruct Hne as (c & r & E). exists c, r. fold (nat_to_string n) in Hv, Hd.
  rewrite E in Hv, Hd. repeat split; [exact E | exact Hd |].
  rewrite Hv. cbn. lia.
Qed.

Lemma all_digits_cons (c : ascii) (r : string) :
  all_digits (String c r) = true -> isdigit c = true /\ all_digits r = true.
Proof. cbn. apply andb_true_iff. Qed.

Lemma span_all_digits (s : string) :
  all_digits s = true -> span_digits s = (s, EmptyString).
Proof.
  induction s as [|c r IH]; [reflexivity|].
  intros H. apply all_digits_cons in H. destruct H as [Hc Hr].
  cbn [span_digits]. now rewrite Hc, (IH Hr).
Qed.

Lemma rstrip_all_digits (s : string) : all_digits s = true -> rstrip s = s.
Proof.
  induction s as [|c r IH]; [reflexivity|].
  intros H. apply all_digits_cons in H. destruct H as [Hc Hr].
  cbn [rstrip]. rewrite (IH Hr). destruct r; [|reflexivity].
  now rewrite (digit_not_space _ Hc).
Qed.

Lemma drop_underscores_all_digits (prev : option ascii) (s : string) :
  all_digits s = true ->
  match prev with Some p => Ascii.eqb p "_" = false | None => True end ->
  drop_underscores prev s = Some s.
Proof.
  revert prev. induction s as [|c r IH]; intros prev H Hp.
  - cbn. destruct prev as [p|]; [now rewrite Hp | reflexivity].
  - apply all_digits_cons in H. destruct H as [Hc Hr].
    cbn [drop_underscores]. rewrite (digit_not_underscore _ Hc), Hc.
    cbn [negb]. rewrite andb_false_r.
    rewrite (IH (Some c) Hr (digit_not_underscore _ Hc)). reflexivity.
Qed.

(** int(str(z)) is z. *)
Lemma int_of_str (z : Z) : int_of_string (str_of_int z) = Ok z.
Proof.
  unfold str_of_int. destruct (z <? 0) eqn:Ez.
  - apply Z.ltb_lt in Ez.
    destruct (nat_to_string_spec (- z)) as (c & r & -> & Hd & Hv); [lia|].
    unfold int_of_string, strip. cbn [lstrip isspace].
    change (isspace "-") with false. cbv iota.
    assert (Hr : rstrip (String "-" (String c r)) = String "-" (String c r)).
    { change (rstrip (String "-" (String c r)))
        with (match rstrip (String c r) with
              | EmptyString => if isspace "-" then EmptyString
                               else String "-" EmptyString
              | r' => String "-" r'
              end).
      now rewrite (rstrip_all_digits _ Hd). }
    rewrite Hr. cbn [take_sign].
    rewrite (drop_underscores_all_digits None _ Hd I), (span_all_digits _ Hd).
    rewrite Hv. f_equal. lia.
  - apply Z.ltb_ge in Ez.
    destruct (nat_to_string_spec z Ez) as (c & r & -> & Hd & Hv).
    pose proof (all_digits_cons _ _ Hd) as [Hc _].
    unfold int_of_string, strip. cbn [lstrip]. rewrite (digit_not_space _ Hc).
    rewrite (rstrip_all_digits _ Hd), (digit_no_sign _ _ Hc).
    rewrite (drop_underscores_all_digits None _ Hd I), (span_all_digits _ Hd).
    now rewrite Hv.
Qed.

(** X8. The quantity survives a backup and a new import: the text
    [_convert_db] writes for a quantity is read by [_convert_csv] as the
    same number. *)
Theorem quantity_text_round_trip (q : Z) :
  int_of_value (VStr (str (VInt q))) = Ok q.
Proof. cbn [str int_of_value]. apply int_of_str. Qed.

(** ** The date text and back *)

Lemma year_text (y : Z) :
  1000 <= y <= 9999 ->
  nat_to_string y
  = String (digit_char (y / 1000))
      (String (digit_char (y / 100 mod 10))
         (String (digit_char (y / 10 mod 10))
            (String (digit_char (y mod 10)) EmptyString))).
Proof.
  intros Hy. unfold nat_to_string.
  assert (Hk : exists k, Z.to_nat (Z.log2 y) = S (S (S k))).
  { pose proof (Z.log2_le_mono 512 y) as H. change (Z.log2 512) with 9 in H.
    exists (Z.to_nat (Z.log2 y) - 3)%nat. lia. }
  destruct Hk as [k ->]. cbn [digits_of].
  assert ((y <? 10) = false) as -> by (apply Z.ltb_ge; lia).
  assert ((y / 10 <? 10) = false) as ->
    by (apply Z.ltb_ge; apply Z.div_le_lower_bound; lia).
  assert ((y / 10 / 10 <? 10) = false) as ->
    by (apply Z.ltb_ge; rewrite Z.div_div by lia; apply Z.div_le_lower_bound; lia).
  assert ((y / 10 / 10 / 10 <? 10) = true) as ->
    by (apply Z.ltb_lt; rewrite !Z.div_div by lia; apply Z.div_lt_upper_bound; lia).
  rewrite !Z.div_div by lia. cbn [Z.mul Pos.mul].
  rewrite (Z.mod_small (y / 1000)); [reflexivity|].
  split; [apply Z.div_pos; lia | apply Z.div_lt_upper_bound; lia].
Qed.

Lemma parse_Y_year (y : Z) :
  1000 <= y <= 9999 -> Date.parse_Y (nat_to_string y) = Some (y, EmptyString).
Proof.
  intros Hy. rewrite (year_text _ Hy). unfold Date.parse_Y.
  assert (H3 : 0 <= y / 1000 < 10)
    by (split; [apply Z.div_pos; lia | apply Z.div_lt_upper_bound; lia]).
  assert (H2 : 0 <= y / 100 mod 10 < 10) by (apply Z.mod_pos_bound; lia).
  assert (H1 : 0 <= y / 10 mod 10 < 10) by (apply Z.mod_pos_bound; lia).
  assert (H0 : 0 <= y mod 10 < 10) by (apply Z.mod_pos_bound; lia).
  destruct (digit_char_spec _ H3) as [D3 V3], (digit_char_spec _ H2) as [D2 V2],
    (digit_char_spec _ H1) as [D1 V1], (digit_char_spec _ H0) as [D0 V0].
  rewrite D3, D2, D1, D0. cbn [andb digits_val]. rewrite V3, V2, V1, V0.
  f_equal. f_equal.
  pose proof (Z.div_mod y 10). pose proof (Z.div_mod (y / 10) 10).
  pose proof (Z.div_mod (y / 100) 10).
  assert (y / 10 / 10 = y / 100) by (rewrite Z.div_div by lia; reflexivity).
  assert (y / 100 / 10 = y / 1000) by (rewrite Z.div_div by lia; reflexivity).
  lia.
Qed.

Lemma parse_m_two_digits (m : Z) (r : string) :
  1 <= m <= 12 ->
  Date.parse_m (Date.two_digits m ++ String "/" r)%string = Some (m, String "/" r).
Proof.
  intros H.
  assert (m = 1 \/ m = 2 \/ m = 3 \/ m = 4 \/ m = 5 \/ m = 6 \/ m = 7 \/ m = 8
          \/ m = 9 \/ m = 10 \/ m = 11 \/ m = 12) as Hm by lia.
  repeat (destruct Hm as [->|Hm]; [reflexivity|]). subst. reflexivity.
Qed.

Lemma parse_d_two_digits (d : Z) (r : string) :
  1 <= d <= 31 ->
  Date.parse_d (Date.two_digits d ++ String "/" r)%string = Some (d, String "/" r).
Proof.
  intros H.
  assert (d = 1 \/ d = 2 \/ d = 3 \/ d = 4 \/ d = 5 \/ d = 6 \/ d = 7 \/ d = 8
          \/ d = 9 \/ d = 10 \/ d = 11 \/ d = 12 \/ d = 13 \/ d = 14 \/ d = 15
          \/ d = 16 \/ d = 17 \/ d = 18 \/ d = 19 \/ d = 20 \/ d = 21 \/ d = 22
          \/ d = 23 \/ d = 24 \/ d = 25 \/ d = 26 \/ d = 27 \/ d = 28 \/ d = 29
          \/ d = 30 \/ d = 31) as Hd by lia.
  repeat (destruct Hd as [->|Hd]; [reflexivity|]). subst. reflexivity.
Qed.

Lemma days_in_month_le (y m : Z) : Date.days_in_month y m <= 31.
Proof.
  unfold Date.days_in_month.
  destruct (m =? 2); [destruct (Date.is_leap y)|destruct (_ || _)]; lia.
Qed.

(** X9. A calendar date from the year 1000 on survives a backup and a
    new import: the text [_convert_db] writes for it is read by
    [_convert_csv] as the same date. *)
Theorem date_text_round_trip (d : Date.date) (s : string) :
  1000 <= Date.year d <= 9999 ->
  1 <= Date.month d <= 12 ->
  1 <= Date.day d <= Date.days_in_month (Date.year d) (Date.month d) ->
  strftime_value (VDate d) = Ok s ->
  strptime_value (VStr s) = Ok d.
Proof.
  intros Hy Hm Hd H. cbn [strftime_value] in H. injection H as <-.
  destruct d as [y m dd]. cbn [Date.year Date.month Date.day] in *.
  cbn [strptime_value]. unfold Date.strptime, Date.strftime.
  cbn [Date.year Date.month Date.day].
  change (Date.two_digits m ++ "/" ++ Date.two_digits dd ++ "/" ++ nat_to_string y)%string
    with (Date.two_digits m
          ++ String "/" (Date.two_digits dd ++ String "/" (nat_to_string y)))%string.
  rewrite parse_m_two_digits by exact Hm. cbn [Date.expect_slash].
  pose proof (days_in_month_le y m).
  rewrite parse_d_two_digits by lia. cbn [Date.expect_slash].
  rewrite parse_Y_year by exact Hy.
  unfold Date.make.
  replace (1 <=? y) with true by (symmetry; apply Z.leb_le; lia).
  replace (y <=? 9999) with true by (symmetry; apply Z.leb_le; lia).
  replace (1 <=? m) with true by (symmetry; apply Z.leb_le; lia).
  replace (m <=? 12) with true by (symmetry; apply Z.leb_le; lia).
  replace (1 <=? dd) with true by (symmetry; apply Z.leb_le; lia).
  replace (dd <=? Date.days_in_month y m) with true by (symmetry; apply Z.leb_le; lia).
  reflexivity.
Qed.

Lemma date_text_round_trip_witness :
  1000 <= Date.year (Date.mkdate 2024 2 29) <= 9999
  /\ 1 <= Date.month (Date.mkdate 2024 2 29) <= 12
  /\ 1 <= Date.day (Date.mkdate 2024 2 29)
       <= Date.days_in_month (Date.year (Date.mkdate 2024 2 29))
            (Date.month (Date.mkdate 2024 2 29))
  /\ strftime_value (VDate (Date.mkdate 2024 2 29)) = Ok "02/29/2024"
  /\ strptime_value (VStr "02/29/2024") = Ok (Date.mkdate 2024 2 29).
Proof.
  assert (Hy : 1000 <= Date.year (Date.mkdate 2024 2 29) <= 9999) by (cbn; lia).
  assert (Hm : 1 <= Date.month (Date.mkdate 2024 2 29) <= 12) by (cbn; lia).
  assert (Hd : 1 <= Date.day (Date.mkdate 2024 2 29)
               <= Date.days_in_month (Date.year (Date.mkdate 2024 2 29))
                    (Date.month (Date.mkdate 2024 2 29)))
    by (vm_compute; split; discriminate).
  assert (Hs : strftime_value (VDate (Date.mkdate 2024 2 29)) = Ok "02/29/2024")
    by reflexivity.
  split; [exact Hy | split; [exact Hm | split; [exact Hd | split; [exact Hs|]]]].
  exact (date_text_round_trip _ _ Hy Hm Hd Hs).
Defined.

(** ** Looking a product up *)






(** ** What is read is never put back *)

Lemma reads_on_refl (w : world) : reads_on w w.
Proof. now exists []. Qed.

Lemma reads_on_trans (a b c : world) : reads_on a b -> reads_on b c -> reads_on a c.
Proof.
  intros [u1 H1] [u2 H2]. exists (u1 ++ u2). now rewrite H1, H2, app_assoc.
Qed.

Lemma reads_on_length (w w' : world) :
  reads_on w w' -> (List.length (stdin w') <= List.length (stdin w))%nat.
Proof. intros [u H]. rewrite H, length_app. lia. Qed.

Lemma reader_bind (A B : Type) (m : M A) (k : A -> M B) :
  reader m -> (forall a, reader (k a)) -> reader (bindS m k).
Proof.
  intros Hm Hk w. specialize (Hm w). unfold run in *. unfold bindS.
  destruct (m w) as [[a|e] w1]; cbn [snd] in *; [|exact Hm].
  exact (reads_on_trans _ _ _ Hm (Hk a w1)).
Qed.

Lemma reader_ret (A : Type) (a : A) : reader (ret a : M A).
Proof. intros w. apply reads_on_refl. Qed.

Lemma reader_raise (A : Type) (e : exn) : reader (raise e : M A).
Proof. intros w. apply reads_on_refl. Qed.

Lemma reader_lift (A : Type) (r : result A) : reader (lift r : M A).
Proof. intros w. apply reads_on_refl. Qed.

Lemma reader_gets (A : Type) (f : world -> A) : reader (gets f).
Proof. intros w. apply reads_on_refl. Qed.

Lemma reader_modify (f : world -> world) :
  (forall w, stdin (f w) = stdin w) -> reader (modify f).
Proof. intros H w. exists []. unfold run, modify. cbn. now rewrite H. Qed.

Lemma reader_input : reader input.
Proof.
  intros w. unfold run, input. destruct (stdin w) as [|l rest] eqn:E; cbn.
  - exists []. now rewrite E.
  - exists [l]. now rewrite E.
Qed.

Lemma reader_reading (A : Type) (loop : list string -> result A * list string) :
  line_reader loop -> reader (reading loop).
Proof.
  intros H w. destruct (H (stdin w)) as [used Hu]. exists used.
  unfold run, reading. destruct (loop (stdin w)); exact Hu.
Qed.

Ltac reader_step :=
  lazymatch goal with
  | |- reader (bindS _ _) => apply reader_bind; [|intros ?]
  | |- reader (ret _) => apply reader_ret
  | |- reader (raise _) => apply reader_raise
  | |- reader (lift _) => apply reader_lift
  | |- reader (gets _) => apply reader_gets
  | |- reader input => apply reader_input
  | |- reader (modify _) => apply reader_modify; intros []; reflexivity
  end.

Lemma reader_wait : reader _wait.
Proof. unfold _wait. repeat reader_step. Qed.

Lemma line_reader_ask_choice : line_reader ask_choice.
Proof.
  intros ins. induction ins as [|l r IH]; cbn [ask_choice]; [now exists []|].
  destruct (chosen l); [now exists [l]|].
  destruct IH as [u Hu]. exists (l :: u). now rewrite Hu at 1.
Qed.

Lemma line_reader_ask_confirm : line_reader ask_confirm.
Proof.
  intros ins. induction ins as [|l r IH]; cbn [ask_confirm]; [now exists []|].
  destruct (upper_is l "Y"); [now exists [l]|].
  destruct (upper_is l "N"); [now exists [l]|].
  destruct IH as [u Hu]. exists (l :: u). now rewrite Hu at 1.
Qed.

Lemma line_reader_ask_quantity : line_reader ask_quantity.
Proof.
  intros ins. induction ins as [|l r IH]; cbn [ask_quantity]; [now exists []|].
  destruct (upper_is l "Q"); [now exists [l]|].
  destruct (int_of_string l) as [q|[]]; try now exists [l].
  destruct IH as [u Hu]. exists (l :: u). now rewrite Hu at 1.
Qed.

Lemma line_reader_ask_price : line_reader ask_price.
Proof.
  intros ins. induction ins as [|l r IH]; cbn [ask_price]; [now exists []|].
  destruct (upper_is l "Q"); [now exists [l]|].
  destruct (bind _ _) as [q|[]]; try now exists [l].
  destruct IH as [u Hu]. exists (l :: u). now rewrite Hu at 1.
Qed.

(** The loops that read two lines in one turn go by pairs of lines. *)
Lemma line_reader_ask_name : line_reader ask_name.
Proof.
  assert (H : forall n ins, (List.length ins <= n)%nat ->
                            exists used, ins = used ++ snd (ask_name ins)).
  { induction n as [|n IH]; intros ins Hn.
    - destruct ins; [now exists [] | cbn in Hn; lia].
    - destruct ins as [|l r]; [now exists []|]. cbn [ask_name].
      destruct (upper_is l "Q"); [now exists [l]|].
      destruct (String.eqb l ""); [|now exists [l]].
      destruct r as [|c r']; [now exists [l]|].
      destruct (upper_is c "Y"); [now exists [l; c]|].
      destruct (IH r') as [u Hu]; [cbn in Hn; lia|].
      exists (l :: c :: u). now rewrite Hu at 1. }
  intros ins. now apply (H (List.length ins)).
Qed.

Lemma line_reader_ask_id (t : Db.table) : line_reader (ask_id t).
Proof.
  assert (H : forall n ins, (List.length ins <= n)%nat ->
                            exists used, ins = used ++ snd (ask_id t ins)).
  { induction n as [|n IH]; intros ins Hn.
    - destruct ins; [now exists [] | cbn in Hn; lia].
    - destruct ins as [|l r]; [now exists []|]. cbn [ask_id].
      assert (Hr : exists used, l :: r = used ++ snd (ask_id t r)).
      { destruct (IH r) as [u Hu]; [cbn in Hn; lia|].
        exists (l :: u). now rewrite Hu at 1. }
      destruct (String.eqb l "").
      + destruct r as [|c r']; [now exists [l]|].
        destruct (upper_is c "Y"); [now exists [l; c]|].
        destruct (IH r') as [u Hu]; [cbn in Hn; lia|].
        exists (l :: c :: u). now rewrite Hu at 1.
      + destruct (upper_is l "Q"); [now exists [l]|].
        destruct (int_of_string l) as [i|[]]; try (now exists [l]); try exact Hr.
        destruct (get_by_id t i) as [p|[]]; try (now exists [l]); exact Hr. }
  intros ins. now apply (H (List.length ins)).
Qed.

Lemma reader_update_latest (new : Db.Product) (verbose : bool) :
  reader (_update_latest new verbose).
Proof.
  unfold _update_latest. repeat reader_step.
  - destruct (Date.ltb _ _); repeat reader_step.
  - destruct verbose; [apply reader_wait | reader_step].
Qed.

Lemma reader_save_product (new : Db.Product) : reader (_save_product new).
Proof.
  unfold _save_product. repeat reader_step.
  destruct (Db.save _ new) as [[t' p]|[]]; repeat reader_step;
    try apply reader_wait; apply reader_update_latest.
Qed.

Lemma reader_add_product : reader _add_product.
Proof.
  unfold _add_product, _get_product_info, _confirm.
  apply reader_bind.
  - apply reader_bind; [apply reader_reading, line_reader_ask_name|].
    intros [n|]; [|reader_step].
    apply reader_bind; [apply reader_reading, line_reader_ask_quantity|].
    intros [q|]; [|reader_step].
    apply reader_bind; [apply reader_reading, line_reader_ask_price|].
    intros [c|]; repeat reader_step.
  - intros [p|]; [|reader_step].
    apply reader_bind; [apply reader_reading, line_reader_ask_confirm|].
    intros []; [apply reader_save_product | reader_step].
Qed.

Lemma reader_view_product : reader _view_product.
Proof.
  unfold _view_product. apply reader_bind; [reader_step|]. intros t.
  apply reader_bind; [apply reader_reading, line_reader_ask_id|].
  intros [p|]; repeat reader_step. apply reader_wait.
Qed.

Lemma reader_backup : reader _backup.
Proof.
  intros w. unfold run. rewrite backup_eq.
  destruct (for_each convert_db_item _) as [[[]|e] ys].
  - eapply reads_on_trans; [|apply reader_wait]. now exists [].
  - now exists [].
Qed.

Lemma reader_save_rows (ps : list item) (count : Z) : reader (save_rows ps count).
Proof.
  revert count. induction ps as [|p ps IH]; intros count; cbn [save_rows];
    [reader_step|].
  apply reader_bind; [reader_step|]. intros new.
  apply reader_bind; [reader_step|]. intros t.
  destruct (Db.save t new) as [[t' p']|[]]; repeat reader_step; try apply IH.
  apply reader_update_latest.
Qed.

Lemma reader_go_startup : reader go_startup.
Proof.
  unfold go_startup, _init_db, _load_csv, _save_csv.
  repeat reader_step; try apply reader_wait; try apply reader_save_rows.
  intros w. unfold run, _convert_csv. destruct (for_each _ _). now exists [].
Qed.

(** ** The main loop *)

Lemma ask_choice_typed (ins rest : list string) (a : action) :
  ask_choice ins = (Ok a, rest) ->
  exists used typed, ins = used ++ typed :: rest /\ chosen typed = Some a.
Proof.
  induction ins as [|l r IH]; cbn [ask_choice]; [discriminate|].
  destruct (chosen l) as [a'|] eqn:E.
  - intros H; injection H as <- <-. now exists [], l.
  - intros H. destruct (IH H) as (u & typed & -> & Ht).
    now exists (l :: u), typed.
Qed.

Lemma reader_perform (a : action) (w : world) : reads_on w (snd (perform a w)).
Proof.
  destruct a; cbn [perform].
  - pose proof (reader_view_product w) as H. unfold run in H.
    destruct (_view_product w) as [[[]|e] w']; exact H.
  - pose proof (reader_add_product w) as H. unfold run in H.
    destruct (_add_product w) as [[[]|e] w']; exact H.
  - pose proof (reader_backup w) as H. unfold run in H.
    destruct (_backup w) as [[[]|e] w']; exact H.
  - apply reads_on_refl.
Qed.

(** Every turn of the loop reads at least one line, so the loop ends
    before the turns are more than the lines. *)
Lemma main_loop_ends (fuel : nat) (w : world) :
  (List.length (stdin w) < fuel)%nat ->
  exists e w', _main_loop fuel w = Some (e, w').
Proof.
  revert w. induction fuel as [|f IH]; intros w Hlen; [lia|].
  cbn [_main_loop]. unfold reading.
  destruct (ask_choice (stdin w)) as [[a|e] rest] eqn:Ec; [|eauto].
  destruct (ask_choice_typed _ _ _ Ec) as (u & typed & Hin & _).
  pose proof (reader_perform a (set_stdin rest w)) as Hp.
  destruct (perform a (set_stdin rest w)) as [[e|] w2]; [eauto|].
  apply IH. apply reads_on_length in Hp. cbn [snd stdin set_stdin] in Hp.
  rewrite Hin, length_app in Hlen. cbn in Hlen. lia.
Qed.

Lemma main_loop_more_fuel (fuel fuel' : nat) (w : world) (r : ending * world) :
  _main_loop fuel w = Some r -> (fuel <= fuel')%nat -> _main_loop fuel' w = Some r.
Proof.
  revert fuel' w. induction fuel as [|f IH]; intros fuel' w H Hle; [discriminate|].
  destruct fuel' as [|f']; [lia|]. cbn [_main_loop] in *.
  destruct (reading ask_choice w) as [[a|e] w1]; [|exact H].
  destruct (perform a w1) as [[e|] w2]; [exact H|].
  apply IH; [exact H | lia].
Qed.

Lemma view_product_db (w : world) : db (run _view_product w) = db w.
Proof.
  unfold run, _view_product, bindS at 1, gets at 1. unfold bindS at 1.
  pose proof (reading_db _ (ask_id (db w)) w) as H. unfold run in H.
  destruct (reading (ask_id (db w)) w) as [[[p|]|e] w1]; cbn [snd] in *;
    [|exact H..].
  unfold bindS, lift. destruct (truediv _ 100); [|exact H].
  rewrite <- H. apply (wait_db w1).
Qed.

(** A run of the loop is a sequence of steps. *)
Lemma main_loop_steps (fuel : nat) (w w' : world) (e : ending) :
  _main_loop fuel w = Some (e, w') -> steps w w'.
Proof.
  revert w. induction fuel as [|f IH]; intros w; [discriminate|].
  cbn [_main_loop].
  pose proof (reading_db _ ask_choice w) as Hr. unfold run in Hr.
  destruct (reading ask_choice w) as [[a|e1] w1]; cbn [snd] in Hr.
  - intros H. eapply steps_cons; [apply step_outside; exact Hr|].
    destruct a; cbn [perform] in H.
    + pose proof (view_product_db w1) as Hv. unfold run in Hv.
      destruct (_view_product w1) as [[[]|e2] w2]; cbn [snd] in Hv.
      * eapply steps_cons; [apply step_outside; exact Hv | now apply IH].
      * injection H as <- <-.
        eapply steps_cons; [apply step_outside; exact Hv | apply steps_nil].
    + pose proof (step_add w1) as Hs. unfold run in Hs.
      destruct (_add_product w1) as [[[]|e2] w2]; cbn [snd] in Hs.
      * eapply steps_cons; [exact Hs | now apply IH].
      * injection H as <- <-. eapply steps_cons; [exact Hs | apply steps_nil].
    + pose proof (step_backup w1) as Hs. unfold run in Hs.
      destruct (_backup w1) as [[[]|e2] w2]; cbn [snd] in Hs.
      * eapply steps_cons; [exact Hs | now apply IH].
      * injection H as <- <-. eapply steps_cons; [exact Hs | apply steps_nil].
    + injection H as <- <-. apply steps_nil.
  - intros H; injection H as <- <-.
    eapply steps_cons; [apply step_outside; exact Hr | apply steps_nil].
Qed.

Lemma go_steps (fuel : nat) (w w' : world) (e : ending) :
  go fuel w = Some (e, w') -> steps w w'.
Proof.
  unfold go. pose proof (step_startup w) as Hs. unfold run in Hs.
  destruct (go_startup w) as [[n|e1] w1]; cbn [snd] in Hs.
  - intros H. eapply steps_cons; [exact Hs | exact (main_loop_steps _ _ _ _ H)].
  - intros H; injection H as <- <-. eapply steps_cons; [exact Hs | apply steps_nil].
Qed.

Lemma steps_wf (w w' : world) : steps w w' -> wf (db w) -> wf (db w').
Proof.
  induction 1 as [w|w1 w2 w3 Hs _ IH]; intros Hwf; [exact Hwf|].
  apply IH. exact (step_wf _ _ Hs Hwf).
Qed.

(** X11. With finitely many lines typed the program always ends: as
    soon as the turns allowed outnumber the lines, [go] ends with the exit
    or with an exception, and more turns do not change how. *)
Theorem program_ends (fuel : nat) (w : world) :
  (List.length (stdin w) < fuel)%nat ->
  exists e w', forall fuel', (fuel <= fuel')%nat -> go fuel' w = Some (e, w').
Proof.
  intros Hlen. unfold go.
  pose proof (reader_go_startup w) as Hr. unfold run in Hr.
  destruct (go_startup w) as [[n|e1] w1]; cbn [snd] in Hr; [|eauto].
  apply reads_on_length in Hr.
  destruct (main_loop_ends fuel w1) as (e & w' & H); [lia|].
  exists e, w'. intros fuel' Hle. exact (main_loop_more_fuel _ _ _ _ H Hle).
Qed.

Lemma program_ends_witness :
  (List.length (stdin shop) < 7)%nat
  /\ exists e w', forall fuel', (7 <= fuel')%nat -> go fuel' shop = Some (e, w').
Proof.
  assert (H : (List.length (stdin shop) < 7)%nat) by (cbn; lia).
  split; [exact H | exact (program_ends 7 shop H)].
Defined.

Lemma chosen_quit (typed : string) :
  chosen typed = Some Quit -> typed = "Q" \/ typed = "q".
Proof.
  unfold chosen, menu_options. cbn [find fst snd option_map].
  destruct (upper_is typed "V"); [discriminate|].
  destruct (upper_is typed "A"); [discriminate|].
  destruct (upper_is typed "B"); [discriminate|].
  destruct (upper_is typed "Q") eqn:E; [|discriminate]. intros _.
  destruct typed as [|a [|b r]]; try discriminate E. cbn [upper_is] in E.
  revert E. each_char a; intros E; try discriminate E; auto.
Qed.

Lemma main_loop_exit (fuel : nat) (w w' : world) :
  _main_loop fuel w = Some (Exit, w') ->
  exists typed, In typed (stdin w) /\ (typed = "Q" \/ typed = "q").
Proof.
  revert w. induction fuel as [|f IH]; intros w; [discriminate|].
  cbn [_main_loop]. unfold reading.
  destruct (ask_choice (stdin w)) as [[a|e] rest] eqn:Ec; [|discriminate].
  destruct (ask_choice_typed _ _ _ Ec) as (u & typed & Hin & Hch).
  pose proof (reader_perform a (set_stdin rest w)) as Hp.
  destruct a; cbn [perform] in *.
  1-3: match goal with
       | |- context [match ?call with pair _ _ => _ end] =>
           destruct call as [[[]|e] w2]; [|discriminate]
       end;
       intros H; destruct (IH _ H) as (t & Ht & Hq); exists t; split; [|exact Hq];
       destruct Hp as [u2 Hu2]; cbn [snd stdin set_stdin] in Hu2;
       rewrite Hin, Hu2; apply in_or_app; right; right;
       apply in_or_app; right; exact Ht.
  intros _. exists typed. split; [|exact (chosen_quit _ Hch)].
  rewrite Hin. apply in_or_app. right. now left.
Qed.

(** X12. The program exits (sys.exit) only when a line "Q" or "q" was
    typed; everything else that ends it is an exception. *)
Theorem exits_only_on_q (fuel : nat) (w w' : world) :
  go fuel w = Some (Exit, w') ->
  exists typed, In typed (stdin w) /\ (typed = "Q" \/ typed = "q").
Proof.
  unfold go. pose proof (reader_go_startup w) as Hr. unfold run in Hr.
  destruct (go_startup w) as [[n|e1] w1]; cbn [snd] in Hr; [|discriminate].
  intros H. destruct (main_loop_exit _ _ _ H) as (t & Ht & Hq).
  exists t. split; [|exact Hq].
  destruct Hr as [u Hu]. rewrite Hu. apply in_or_app. now right.
Qed.

Lemma exits_only_on_q_witness :
  go 3 (first_run [] [""; "x"; "q"]) = Some (Exit, first_run [] [])
  /\ exists typed, In typed (stdin (first_run [] [""; "x"; "q"]))
                   /\ (typed = "Q" \/ typed = "q").
Proof.
  assert (H : go 3 (first_run [] [""; "x"; "q"]) = Some (Exit, first_run [] []))
    by (vm_compute; reflexivity).
  split; [exact H | exact (exits_only_on_q _ _ _ H)].
Defined.

(** X13. A whole run of the program, from [go] to its end, with any
    inventory.csv and any lines typed, keeps the table well formed (one
    row for each name and for each id) and keeps every row it had. *)
Theorem run_keeps_table (fuel : nat) (w w' : world) (e : ending) :
  wf (db w) ->
  go fuel w = Some (e, w') ->
  wf (db w') /\ grows (db w) (db w').
Proof.
  intros Hwf H. pose proof (go_steps _ _ _ _ H) as Hsteps. split.
  - exact (steps_wf _ _ Hsteps Hwf).
  - destruct (steps_reconcile _ _ Hsteps Hwf) as [cs ->].
    now apply fold_reconciled_grows.
Qed.

Lemma run_keeps_table_witness :
  wf (db shop)
  /\ (exists e w', go 7 shop = Some (e, w')
                   /\ wf (db w') /\ grows (db shop) (db w')).
Proof.
  assert (Hwf : wf (db shop)) by table_ok.
  split; [exact Hwf|].
  destruct (go 7 shop) as [[e w']|] eqn:E.
  - exists e, w'. split; [reflexivity | exact (run_keeps_table _ _ _ _ Hwf E)].
  - exfalso. vm_compute in E. discriminate E.
Defined.

(** ** Viewing and a backup that fails *)

Lemma wait_only_reads (w : world) :
  exists used rest, stdin w = used ++ rest /\ run _wait w = set_stdin rest w.
Proof.
  unfold run, _wait, bindS, input, ret. destruct w as [ps t csv bk [|l r] day];
    cbn [stdin snd].
  - now exists [], [].
  - now exists [l], r.
Qed.

(** X14. Viewing a product changes nothing: whatever is typed, and
    whether it ends well or not, afterwards the table, the files and
    [self.products] are as before, and of the lines typed an initial part
    is used up. *)
Theorem view_changes_nothing (w : world) :
  exists used rest,
    stdin w = used ++ rest /\ run _view_product w = set_stdin rest w.
Proof.
  unfold run, _view_product, bindS at 1, gets at 1. unfold bindS at 1, reading.
  destruct (line_reader_ask_id (db w) (stdin w)) as [u Hu].
  destruct (ask_id (db w) (stdin w)) as [[[p|]|e] rest]; cbn [snd] in *.
  - unfold bindS at 1, lift.
    destruct (truediv _ 100); cbn [snd].
    + destruct (wait_only_reads (set_stdin rest w)) as (u2 & rest2 & H2 & Hw).
      cbn [stdin set_stdin] in H2. unfold run in Hw.
      exists (u ++ u2), rest2. split.
      * now rewrite Hu, H2, app_assoc.
      * rewrite Hw. reflexivity.
    + now exists u, rest.
  - now exists u, rest.
  - now exists u, rest.
Qed.

Lemma convert_db_item_raises (p p' : item) (e : exn) :
  convert_db_item p = (Raise e, p') -> e = TypeError \/ e = OverflowError.
Proof.
  unfold convert_db_item, bindS, gets, lift, modify.
  destruct (price_text (product_price p)) as [s|e1] eqn:Ep.
  - cbn [date_updated set_quantity set_price].
    destruct (date_updated p); cbn [strftime_value]; intros H;
      first [discriminate H | injection H as <- _; now left].
  - intros H; injection H as <- _. revert Ep. unfold price_text.
    destruct (product_price p) as [s|c|d]; try (intros H; injection H as <-; now left).
    unfold truediv.
    destruct (binary64 _ _ _); cbn [bind]; intros H;
      first [discriminate H | injection H as <-; now right].
Qed.

Lemma for_each_convert_raises (xs ys : list item) (e : exn) :
  for_each convert_db_item xs = (Raise e, ys) -> e = TypeError \/ e = OverflowError.
Proof.
  revert ys. induction xs as [|x xs IH]; intros ys; cbn [for_each]; [discriminate|].
  destruct (convert_db_item x) as [[[]|e1] x'] eqn:Ex.
  - destruct (for_each convert_db_item xs) as [r rest] eqn:Er.
    intros H; injection H as -> _. exact (IH _ eq_refl).
  - intros H; injection H as <- _. exact (convert_db_item_raises _ _ _ Ex).
Qed.

(** X15. A backup that fails: either the conversion raised, TypeError
    or OverflowError, and then backup.csv was not opened and is as it
    was, and no line was read; or the file was written in full and
    the wait for the Enter key found no line, EOFError. *)
Theorem failed_backup (w : world) (e : exn) :
  fst (_backup w) = Raise e ->
  ((e = TypeError \/ e = OverflowError)
   /\ backup_csv (run _backup w) = backup_csv w
   /\ stdin (run _backup w) = stdin w)
  \/ (e = EOFError /\ stdin w = []
      /\ exists rows, backup_csv (run _backup w) = fieldnames :: rows).
Proof.
  unfold run. rewrite backup_eq.
  destruct (for_each convert_db_item _) as [[[]|e1] ys] eqn:Efe.
  - unfold _wait, bindS, input, ret.
    destruct w as [ps t csv bk [|l r] day]; cbn; [|discriminate].
    intros H; injection H as <-. right. eauto.
  - cbn [fst snd]. intros H; injection H as <-. left.
    split; [exact (for_each_convert_raises _ _ _ Efe)|].
    destruct w; split; reflexivity.
Qed.

Lemma failed_backup_witness :
  fst (_backup (run _backup (world_of [stored 1 gadget]))) = Raise TypeError
  /\ backup_csv (run _backup (run _backup (world_of [stored 1 gadget])))
     = backup_csv (run _backup (world_of [stored 1 gadget])).
Proof.
  assert (H : fst (_backup (run _backup (world_of [stored 1 gadget]))) = Raise TypeError)
    by (vm_compute; reflexivity).
  split; [exact H|].
  destruct (failed_backup _ _ H) as [(_ & Hb & _)|(He & _)];
    [exact Hb | discriminate He].
Defined.

(** ** How far the cents are from the amount *)

Lemma round_half_even_near (num den : Z) :
  0 < den ->
  - den <= 2 * (round_half_even num den * den - num) <= den.
Proof.
  intros Hd. unfold round_half_even.
  pose proof (Z.div_mod num den ltac:(lia)) as Hdm.
  pose proof (Z.mod_pos_bound num den Hd) as Hm.
  destruct (2 * (num mod den) ?= den) eqn:E.
  - apply Z.compare_eq in E. destruct (Z.even (num / den)); nia.
  - apply (proj1 (Z.compare_lt_iff _ _)) in E. nia.
  - apply (proj1 (Z.compare_gt_iff _ _)) in E. nia.
Qed.

Lemma floor_log2_ratio_ge (n d : Z) :
  Z.log2 n - Z.log2 d - 1 <= floor_log2_ratio n d.
Proof.
  unfold floor_log2_ratio.
  match goal with |- context [if ?c then _ else _ - 1] => destruct c end; lia.
Qed.

(** The binary64 of a quotient below [2^52] whose numerator is not
    below the denominator by more than 1000 binary places. *)
Lemma binary64_small (n d k : Z) :
  0 < n -> 0 < d -> k = 52 - floor_log2_ratio n d ->
  0 < k <= 1074 ->
  binary64 false n d = Fin false (round_half_even (n * 2 ^ k) d) (- k).
Proof.
  intros Hn Hd -> Hk. unfold binary64.
  destruct (n =? 0) eqn:E; [lia|].
  rewrite Z.max_l by lia.
  destruct (0 <=? floor_log2_ratio n d - 52) eqn:E2; [lia|].
  cbn [andb].
  replace (- (floor_log2_ratio n d - 52)) with (52 - floor_log2_ratio n d) by lia.
  f_equal. lia.
Qed.

(** The two roundings of a price coercion, the binary64 nearest to
    [n / d] and the one nearest to its product with 100, when [n / d] is
    [cents] hundredths: both errors together are less than one cent. *)
Lemma two_roundings (n d cents : Z) :
  0 < n -> 0 < d -> n * 100 = cents * d -> 0 < cents < 10 ^ 15 ->
  9 <= 52 - floor_log2_ratio n d <= 59 ->
  exists c, int_of_float (fmul (binary64 false n d) (float_of_int 100)) = Ok c
            /\ (c = cents \/ c = cents - 1).
Proof.
  intros Hpos Hd Hscale Hn Hk1.
  assert (H100 : float_of_int 100 = Fin false (100 * 2 ^ 46) (-46))
    by (vm_compute; reflexivity).
  rewrite H100.
  change (10 ^ 15) with 1000000000000000 in Hn.
  (* the first rounding *)
  set (k1 := 52 - floor_log2_ratio n d) in *.
  rewrite (binary64_small n d k1) by (try reflexivity; lia).
  set (m1 := round_half_even (n * 2 ^ k1) d).
  pose proof (round_half_even_near (n * 2 ^ k1) d Hd) as H1.
  fold m1 in H1.
  assert (HK1 : 512 <= 2 ^ k1).
  { change 512 with (2 ^ 9). apply Z.pow_le_mono_r; lia. }
  assert (H1' : -100 <= 2 * (100 * m1 - cents * 2 ^ k1) <= 100).
  { assert (E : d * (100 * m1 - cents * 2 ^ k1) = 100 * (m1 * d - n * 2 ^ k1)).
    { replace (d * (100 * m1 - cents * 2 ^ k1))
        with (100 * (m1 * d) - cents * d * 2 ^ k1) by ring.
      rewrite <- Hscale. ring. }
    nia. }
  clear H1.
  assert (Hm1 : 0 < m1) by nia.
  (* the product *)
  cbn [fmul xorb]. unfold of_dyadic.
  destruct (0 <=? - k1 + -46) eqn:E; [lia|]. clear E.
  replace (- (- k1 + -46)) with (46 + k1) by lia.
  set (n2 := m1 * (100 * 2 ^ 46)).
  set (d2 := 2 ^ (46 + k1)).
  assert (Hd2 : d2 = 2 ^ 46 * 2 ^ k1) by (unfold d2; apply Z.pow_add_r; lia).
  assert (Hd2pos : 0 < d2) by (unfold d2; apply Z.pow_pos_nonneg; lia).
  assert (Hn2pos : 0 < n2) by (unfold n2; nia).
  set (k2 := 52 - floor_log2_ratio n2 d2).
  assert (Hk2 : 2 <= k2 <= 1074).
  { pose proof (floor_log2_ratio_le n2 d2). pose proof (floor_log2_ratio_ge n2 d2).
    assert (Hld : Z.log2 d2 = 46 + k1) by (unfold d2; apply Z.log2_pow2; lia).
    assert (Hln2 : Z.log2 n2 < 96 + k1).
    { apply Z.log2_lt_pow2; [lia|].
      replace (2 ^ (96 + k1)) with (2 ^ 50 * 2 ^ 46 * 2 ^ k1)
        by (rewrite <- !Z.pow_add_r by lia; f_equal; lia).
      unfold n2. change (2 ^ 50) with 1125899906842624.
      assert (100 * m1 < 1125899906842624 * 2 ^ k1) by nia.
      pose proof (Z.pow_pos_nonneg 2 46 ltac:(lia) ltac:(lia)). nia. }
    assert (0 <= Z.log2 n2) by apply Z.log2_nonneg.
    unfold k2. lia. }
  rewrite (binary64_small n2 d2 k2) by (try reflexivity; lia).
  set (m2 := round_half_even (n2 * 2 ^ k2) d2).
  pose proof (round_half_even_near (n2 * 2 ^ k2) d2 Hd2pos) as H2. fold m2 in H2.
  cbn [int_of_float]. destruct (0 <=? - k2) eqn:E; [lia|]. clear E.
  rewrite Z.opp_involutive.
  assert (HK2 : 4 <= 2 ^ k2).
  { change 4 with (2 ^ 2). apply Z.pow_le_mono_r; lia. }
  exists (m2 / 2 ^ k2). split; [reflexivity|].
  set (K1 := 2 ^ k1) in *. set (K2 := 2 ^ k2) in *.
  set (P := 2 ^ 46) in *.
  assert (HP : 0 < P) by (unfold P; lia).
  assert (H2' : - K1 <= 2 * (m2 * K1 - 100 * m1 * K2) <= K1).
  { rewrite Hd2 in H2. unfold n2 in H2. nia. }
  assert (Hlo : (cents - 1) * K2 <= m2) by nia.
  assert (Hhi : m2 < (cents + 1) * K2) by nia.
  assert (Hq : cents - 1 <= m2 / K2 < cents + 1).
  { split.
    - apply Z.div_le_lower_bound; lia.
    - apply Z.div_lt_upper_bound; lia. }
  lia.
Qed.

(** The arithmetic of both price coercions for an amount of [cents]
    hundredths that is written with no, one or two decimal digits, and so
    read as [n / d] with [d] 1, 10 or 100. *)
Lemma decimal_within_a_cent (n d cents : Z) :
  d = 1 \/ d = 10 \/ d = 100 ->
  n * 100 = cents * d ->
  0 <= cents < 10 ^ 15 ->
  exists c, int_of_float (fmul (binary64 false n d) (float_of_int 100)) = Ok c
            /\ (c = cents \/ c = cents - 1).
Proof.
  intros Hd Hscale Hn.
  destruct (Z.eq_dec cents 0) as [->|H0].
  { replace n with 0 by (destruct Hd as [->|[->| ->]]; lia).
    exists 0. split; [reflexivity | now left]. }
  assert (Hpos : 0 < n) by (destruct Hd as [->|[->| ->]]; lia).
  assert (Hdpos : 0 < d) by (destruct Hd as [->|[->| ->]]; lia).
  apply two_roundings; try lia.
  pose proof (floor_log2_ratio_le n d). pose proof (floor_log2_ratio_ge n d).
  assert (Hlo : 0 <= Z.log2 n) by apply Z.log2_nonneg.
  change (10 ^ 15) with 1000000000000000 in Hn.
  assert (Hlog : Z.log2 d <= 6 /\ Z.log2 n < 44 + Z.log2 d); [|lia].
  destruct Hd as [->|[->| ->]].
  - split; [cbv; discriminate|]. change (44 + Z.log2 1) with 44.
    apply Z.log2_lt_pow2; [lia|]. change (2 ^ 44) with 17592186044416. lia.
  - split; [cbv; discriminate|]. change (44 + Z.log2 10) with 47.
    apply Z.log2_lt_pow2; [lia|]. change (2 ^ 47) with 140737488355328. lia.
  - split; [cbv; discriminate|]. change (44 + Z.log2 100) with 50.
    apply Z.log2_lt_pow2; [lia|]. change (2 ^ 50) with 1125899906842624. lia.
Qed.

(** ** The text of an amount *)

Lemma string_app_assoc (a b c : string) :
  ((a ++ b) ++ c)%string = (a ++ (b ++ c))%string.
Proof. induction a as [|x a IH]; cbn; [reflexivity | now rewrite IH]. Qed.


Lemma span_digits_app (d t : string) :
  all_digits d = true ->
  match t with String c _ => isdigit c = false | EmptyString => True end ->
  span_digits (d ++ t)%string = (d, t).
Proof.
  intros Hd Ht. induction d as [|c d IH]; cbn [String.append].
  - destruct t as [|c r]; cbn [span_digits]; [reflexivity | now rewrite Ht].
  - apply all_digits_cons in Hd as [Hc Hd]. cbn [span_digits].
    now rewrite Hc, (IH Hd).
Qed.

Lemma digits_val_app (acc : Z) (a b : string) :
  digits_val acc (a ++ b)%string = digits_val (digits_val acc a) b.
Proof.
  revert acc. induction a as [|c a IH]; intros acc; cbn; [reflexivity | apply IH].
Qed.

Lemma search_skip (pre s : string) :
  has_digit pre = false -> Re.search (pre ++ s)%string = Re.search s.
Proof.
  unfold has_digit. induction pre as [|c pre IH]; cbn; [reflexivity|].
  intros H. apply orb_false_iff in H as [Hc Hp]. rewrite Hc. exact (IH Hp).
Qed.

Lemma search_at_digit (c : ascii) (r : string) :
  isdigit c = true -> Re.search (String c r) = Some (Re.match_here (String c r)).
Proof. intros H. cbn [Re.search]. now rewrite H. Qed.

(** Of the digits after the point the pattern takes two; it takes them
    all when they are two, or fewer with no digit after them. *)
Lemma take_cents (cents post : string) :
  all_digits cents = true -> (String.length cents <= 2)%nat ->
  String.length cents = 2%nat
  \/ match post with String c _ => isdigit c = false | EmptyString => True end ->
  Re.take_digits 2 (cents ++ post)%string = cents.
Proof.
  intros Hc Hlen Hpost.
  assert (Hstop : forall k,
             match post with String c _ => isdigit c = false | EmptyString => True end ->
             Re.take_digits k post = EmptyString).
  { intros k H. destruct k, post as [|c r]; cbn; try reflexivity. now rewrite H. }
  destruct cents as [|c1 [|c2 [|c3 r]]]; cbn [String.length] in *; try lia.
  - destruct Hpost as [H|H]; [discriminate H | now apply Hstop].
  - apply all_digits_cons in Hc as [H1 _]. destruct Hpost as [H|H]; [discriminate H|].
    change (Re.take_digits 2 (String c1 "" ++ post)%string)
      with (if isdigit c1 then String c1 (Re.take_digits 1 post) else EmptyString).
    now rewrite H1, (Hstop _ H).
  - apply all_digits_cons in Hc as [H1 Hc]. apply all_digits_cons in Hc as [H2 _].
    cbn [String.append Re.take_digits]. now rewrite H1, H2.
Qed.

(** The pattern finds the amount whatever stands around it, when no
    digit stands before it. *)
Lemma search_amount (pre dollars cents post : string) :
  has_digit pre = false ->
  all_digits dollars = true -> dollars <> EmptyString ->
  all_digits cents = true -> (String.length cents <= 2)%nat ->
  String.length cents = 2%nat
  \/ match post with String c _ => isdigit c = false | EmptyString => True end ->
  Re.search (pre ++ (dollars ++ "." ++ cents) ++ post)%string
  = Some (dollars ++ "." ++ cents)%string.
Proof.
  intros Hpre Hd Hne Hc Hlen Hpost. rewrite (search_skip _ _ Hpre).
  rewrite string_app_assoc.
  change (("." ++ cents) ++ post)%string with (String "." (cents ++ post)%string).
  assert (Hm : Re.match_here (dollars ++ String "." (cents ++ post))%string
               = (dollars ++ "." ++ cents)%string).
  { unfold Re.match_here. rewrite (span_digits_app _ _ Hd) by reflexivity.
    cbn [Ascii.eqb Bool.eqb]. now rewrite (take_cents _ _ Hc Hlen Hpost). }
  rewrite <- Hm.
  destruct dollars as [|d0 dollars]; [now elim Hne|].
  apply search_at_digit. exact (proj1 (all_digits_cons _ _ Hd)).
Qed.

Lemma forallb_string_app (f : ascii -> bool) (a b : string) :
  forallb f (list_ascii_of_string (a ++ b)%string)
  = forallb f (list_ascii_of_string a) && forallb f (list_ascii_of_string b).
Proof.
  induction a as [|c a IH]; cbn; [reflexivity|]. now rewrite IH, andb_assoc.
Qed.

(** A text without white space and without underscores is what [float]
    reads: nothing is stripped and nothing dropped. *)
Lemma strip_plain (s : string) :
  forallb (fun c => negb (isspace c)) (list_ascii_of_string s) = true ->
  strip s = s.
Proof.
  intros H. unfold strip.
  assert (Hl : lstrip s = s).
  { destruct s as [|c r]; [reflexivity|]. cbn in H.
    apply andb_true_iff in H as [Hc _]. apply negb_true_iff in Hc.
    cbn [lstrip]. now rewrite Hc. }
  rewrite Hl. induction s as [|c r IH]; [reflexivity|].
  cbn in H. apply andb_true_iff in H as [Hc Hr]. apply negb_true_iff in Hc.
  cbn [rstrip]. rewrite IH.
  - destruct r; [now rewrite Hc | reflexivity].
  - exact Hr.
  - destruct r as [|c' r']; [reflexivity|]. cbn in Hr.
    apply andb_true_iff in Hr as [Hc' _]. apply negb_true_iff in Hc'.
    cbn [lstrip]. now rewrite Hc'.
Qed.

Lemma drop_underscores_plain (prev : option ascii) (s : string) :
  match prev with Some p => Ascii.eqb p "_" = false | None => True end ->
  forallb (fun c => negb (Ascii.eqb c "_")) (list_ascii_of_string s) = true ->
  drop_underscores prev s = Some s.
Proof.
  revert prev. induction s as [|c r IH]; intros prev Hp Hs; cbn [drop_underscores].
  - destruct prev as [p|]; [now rewrite Hp | reflexivity].
  - cbn in Hs. apply andb_true_iff in Hs as [Hc Hr]. apply negb_true_iff in Hc.
    rewrite Hc.
    replace (match prev with Some p => Ascii.eqb p "_" | None => false end) with false
      by (destruct prev as [p|]; [now rewrite Hp | reflexivity]).
    cbn [andb]. now rewrite (IH (Some c) Hc Hr).
Qed.

Lemma digits_plain (s : string) :
  all_digits s = true ->
  forallb (fun c => negb (isspace c)) (list_ascii_of_string s) = true
  /\ forallb (fun c => negb (Ascii.eqb c "_")) (list_ascii_of_string s) = true.
Proof.
  induction s as [|c r IH]; cbn; [split; reflexivity|]. intros H.
  apply andb_true_iff in H as [Hc Hr]. destruct (IH Hr) as [H1 H2].
  now rewrite (digit_not_space _ Hc), (digit_not_underscore _ Hc), H1, H2.
Qed.

Lemma digit_no_name (c : ascii) (r : string) :
  isdigit c = true ->
  String.eqb (lower_string (String c r)) "inf"
  || String.eqb (lower_string (String c r)) "infinity" = false
  /\ String.eqb (lower_string (String c r)) "nan" = false.
Proof.
  each_char c; intros H; try discriminate H; split; reflexivity.
Qed.

(** float() of dollars, a point and digits of cents: the binary64
    nearest to the quotient of all the digits by the power of ten of
    those after the point. *)
Lemma float_of_amount (dollars cents : string) :
  all_digits dollars = true -> dollars <> EmptyString ->
  all_digits cents = true -> cents <> EmptyString ->
  0 <= digits_val 0 (dollars ++ cents)%string
  /\ parse_decimal (dollars ++ "." ++ cents)%string
     = Some (digits_val 0 (dollars ++ cents)%string, - slen cents)
  /\ float_of_string (dollars ++ "." ++ cents)%string
     = Ok (binary64 false (digits_val 0 (dollars ++ cents)%string) (10 ^ slen cents)).
Proof.
  intros Hd Hne Hc Hnc.
  set (n := digits_val 0 (dollars ++ cents)%string).
  assert (Hlen : 0 < slen cents).
  { unfold slen. destruct cents; [now elim Hnc | cbn [String.length]; lia]. }
  assert (Hparse : parse_decimal (dollars ++ "." ++ cents)%string = Some (n, - slen cents)).
  { unfold parse_decimal.
    change ("." ++ cents)%string with (String "." cents).
    rewrite (span_digits_app _ _ Hd) by reflexivity.
    rewrite (span_all_digits _ Hc).
    destruct (_ =? 0) eqn:E; [apply Z.eqb_eq in E; unfold slen in *; lia|].
    unfold n. now rewrite digits_val_app. }
  split; [exact (parse_decimal_nonneg _ _ _ Hparse)|].
  split; [exact Hparse|].
  unfold float_of_string.
  destruct (digits_plain _ Hd) as [Hd1 Hd2]. destruct (digits_plain _ Hc) as [Hc1 Hc2].
  rewrite strip_plain
    by (rewrite !forallb_string_app, Hd1, Hc1; reflexivity).
  rewrite drop_underscores_plain;
    [|exact I | rewrite !forallb_string_app, Hd2, Hc2; reflexivity].
  destruct dollars as [|d0 dollars]; [now elim Hne|].
  pose proof (proj1 (all_digits_cons _ _ Hd)) as Hd0.
  cbn [String.append] in Hparse |- *. rewrite (digit_no_sign _ _ Hd0).
  destruct (digit_no_name d0 (dollars ++ String "." cents)%string Hd0) as [Hinf Hnan].
  rewrite Hinf, Hnan, Hparse. unfold of_decimal.
  destruct (0 <=? - slen cents) eqn:E; [apply Z.leb_le in E; lia|].
  now rewrite Z.opp_involutive.
Qed.

(** Both coercions on an amount with one or two digits of cents. *)
Lemma amount_within_a_cent (pre dollars cents post : string) :
  has_digit pre = false ->
  all_digits dollars = true -> dollars <> EmptyString ->
  all_digits cents = true -> cents <> EmptyString ->
  (String.length cents <= 2)%nat ->
  String.length cents = 2%nat
  \/ match post with String c _ => isdigit c = false | EmptyString => True end ->
  digits_val 0 (dollars ++ cents)%string * 10 ^ (2 - slen cents) < 10 ^ 15 ->
  exists c,
    price_cents (VStr (pre ++ (dollars ++ "." ++ cents) ++ post)%string) = Ok c
    /\ typed_cents (dollars ++ "." ++ cents)%string = Ok c
    /\ cents_of_amount (dollars ++ "." ++ cents)%string
       = Some (digits_val 0 (dollars ++ cents)%string * 10 ^ (2 - slen cents))
    /\ (c = digits_val 0 (dollars ++ cents)%string * 10 ^ (2 - slen cents)
        \/ c = digits_val 0 (dollars ++ cents)%string * 10 ^ (2 - slen cents) - 1).
Proof.
  intros Hpre Hd Hne Hc Hnc Hlen Hpost Hsmall.
  destruct (float_of_amount _ _ Hd Hne Hc Hnc) as (Hpos & Hparse & Hfloat).
  set (n := digits_val 0 (dollars ++ cents)%string) in *.
  assert (Hcases : slen cents = 1 \/ slen cents = 2).
  { unfold slen. destruct cents as [|c1 [|c2 [|c3 r]]]; cbn [String.length] in *;
      [now elim Hnc | lia..]. }
  destruct (decimal_within_a_cent n (10 ^ slen cents) (n * 10 ^ (2 - slen cents)))
    as (c & Hcents & Hc12).
  { destruct Hcases as [-> | ->]; [right; left | right; right]; reflexivity. }
  { destruct Hcases as [-> | ->]; cbn; lia. }
  { split; [|exact Hsmall]. destruct Hcases as [-> | ->]; cbn; lia. }
  exists c. unfold price_cents, typed_cents, cents_of_amount.
  rewrite (search_amount _ _ _ _ Hpre Hd Hne Hc Hlen Hpost), Hfloat, Hparse.
  cbn [bind]. split; [exact Hcents|]. split; [exact Hcents|].
  split; [|exact Hc12]. f_equal.
  destruct Hcases as [-> | ->]; reflexivity.
Qed.

(** X16. For an amount written as dollars, a point and two digits of
    cents, below ten trillion dollars, both price coercions, that of the
    import (whatever stands around the amount in the cell, when no digit
    stands before it) and that of the price prompt, give the same cents,
    and these are the exact cents or one cent less: never more, and never
    off by two. *)
Theorem price_within_a_cent (pre dollars cents post : string) (n : Z) :
  has_digit pre = false ->
  all_digits dollars = true -> dollars <> EmptyString ->
  all_digits cents = true -> String.length cents = 2%nat ->
  cents_of_amount (dollars ++ "." ++ cents)%string = Some n ->
  n < 10 ^ 15 ->
  exists c,
    price_cents (VStr (pre ++ (dollars ++ "." ++ cents) ++ post)%string) = Ok c
    /\ typed_cents (dollars ++ "." ++ cents)%string = Ok c
    /\ (c = n \/ c = n - 1).
Proof.
  intros Hpre Hd Hne Hc Hlen Hn Hsmall.
  assert (Hnc : cents <> EmptyString) by (intros ->; discriminate Hlen).
  assert (Hexact : cents_of_amount (dollars ++ "." ++ cents)%string
                   = Some (digits_val 0 (dollars ++ cents)%string
                           * 10 ^ (2 - slen cents))).
  { destruct (float_of_amount _ _ Hd Hne Hc Hnc) as (_ & Hparse & _).
    unfold cents_of_amount. rewrite Hparse. unfold slen. rewrite Hlen.
    cbn. reflexivity. }
  assert (Hn' : digits_val 0 (dollars ++ cents)%string * 10 ^ (2 - slen cents) = n)
    by congruence.
  destruct (amount_within_a_cent pre dollars cents post Hpre Hd Hne Hc Hnc)
    as (c & Hp & Ht & _ & Hc12);
    [rewrite Hlen; auto | now left | rewrite Hn'; exact Hsmall |].
  exists c. rewrite Hn' in Hc12. auto.
Qed.

Lemma price_within_a_cent_witness :
  cents_of_amount ("0" ++ "." ++ "29")%string = Some 29
  /\ exists c,
       price_cents (VStr ("$" ++ ("0" ++ "." ++ "29") ++ " each")%string) = Ok c
       /\ typed_cents ("0" ++ "." ++ "29")%string = Ok c
       /\ (c = 29 \/ c = 29 - 1).
Proof.
  assert (Hn : cents_of_amount ("0" ++ "." ++ "29")%string = Some 29) by reflexivity.
  assert (Hne : "0" <> EmptyString) by discriminate.
  assert (Hsmall : 29 < 10 ^ 15) by reflexivity.
  split; [exact Hn|].
  exact (price_within_a_cent "$" "0" "29" " each" 29
           eq_refl eq_refl Hne eq_refl eq_refl Hn Hsmall).
Defined.

(** ** What can end the program *)





























(** ** A price written by the backup and read by the import *)




